(** * Cable voltage-drop engine of cable_calculator.py

    A shallow embedding of the calculation engine of the cable calculator
    (the module-level table [CABLE_DATA], the constant [ALPHA_COPPER] and the
    functions [calculate_voltage_drop] and [determine_cores_required]),
    followed by the properties of the engine.  Of the window class
    [CableCalculatorGUI] it embeds what works on the engine and on the
    catalog: the wiring recommendation of [calculate],
    [update_conductor_specs], [reset_inputs] and the state [__init__]
    leaves.  Reading the entry texts as numbers, the preset files and the
    dialogs are not modelled.

    The Python functions are written once, over an interface [FloatArith] for
    the arithmetic of Python's [float], and run at two instances:
    - [exact]: every float is the rational number it denotes and no
      operation rounds or overflows.  The formula of the forward calculator
      is read at this one;
    - [binary64]: IEEE 754 double precision, round to nearest even, as
      CPython computes.  The worked examples run at this one, and so do
      the laws about signs, guards and exceptions, which do not depend on
      how an operation rounds, and the proportionality of the drop, which
      holds within a tolerance derived from a bound on the rounding error
      of one multiplication or division.  *)

From Stdlib Require Import ZArith QArith Qabs Qround Qpower Lqa Lia Floats.
From stdpp Require Import base option gmap strings pretty.

Local Open Scope Z_scope.
Set Warnings "-inexact-float".

(** ** Python exceptions and results *)

Inductive pyexn :=
  | ValueError (msg : string)
  | ZeroDivisionError
  | OverflowError.

Inductive result (A : Type) :=
  | Ok (a : A)
  | Raise (e : pyexn).
Arguments Ok {A} a.
Arguments Raise {A} e.

#[global] Instance result_ret : MRet result := fun _ a => Ok a.
#[global] Instance result_bind : MBind result := fun _ _ f m =>
  match m with
  | Ok a => f a
  | Raise e => Raise e
  end.

(** The rational a finite double denotes. *)
Definition SF2Q (s : bool) (m : positive) (e : Z) : Q :=
  let n := if s then Z.neg m else Z.pos m in
  match e with
  | Z0 => inject_Z n
  | Z.pos p => inject_Z (n * 2 ^ Z.pos p)
  | Z.neg p => Qmake n (2 ^ p)
  end.

(** [math.isfinite], [math.isinf] and [math.isnan] on a double. *)
Definition isfinite (x : float) : bool :=
  match Prim2SF x with
  | S754_zero _ | S754_finite _ _ _ => true
  | S754_infinity _ | S754_nan => false
  end.

Definition isinf (x : float) : bool :=
  match Prim2SF x with
  | S754_infinity _ => true
  | _ => false
  end.

Definition isnan (x : float) : bool :=
  match Prim2SF x with
  | S754_nan => true
  | _ => false
  end.

(** The rational a double denotes when it is finite. *)
Definition float_value (x : float) : Q :=
  match Prim2SF x with
  | S754_finite s m e => SF2Q s m e
  | _ => 0%Q
  end.

(** ** Python objects *)

(** The objects [determine_cores_required] hands back: an [int] or a
    [float]; [float('inf')] is [PyFloat infinity]. *)
Inductive pyvalue :=
  | PyInt (n : Z)
  | PyFloat (x : float).

(** [isinstance(v, float)]; a float is a number, finite or not. *)
Definition is_float (v : pyvalue) : bool :=
  match v with PyFloat _ => true | PyInt _ => false end.

(** [v == n] for a float [v] and an int [n]: their values are compared
    exactly, and an infinity or a NaN equals no int. *)
Definition float_eq_int (x : float) (n : Z) : bool :=
  match Prim2SF x with
  | S754_zero _ => (n =? 0)%Z
  | S754_finite s m e => Qeq_bool (SF2Q s m e) (inject_Z n)
  | S754_infinity _ | S754_nan => false
  end.

(** Python's [==] on these objects. *)
Definition py_eq (v w : pyvalue) : bool :=
  match v, w with
  | PyInt a, PyInt b => (a =? b)%Z
  | PyFloat x, PyFloat y => PrimFloat.eqb x y
  | PyFloat x, PyInt n | PyInt n, PyFloat x => float_eq_int x n
  end.

(** ** Rounding a rational to an integer, ties to even: Python 3's [round] *)

Definition round_half_even (q : Q) : Z :=
  let d := Z.pos (Qden q) in
  let f := Qnum q / d in
  match (2 * (Qnum q mod d)) ?= d with
  | Lt => f
  | Gt => f + 1
  | Eq => if Z.even f then f else f + 1
  end.

(** ** The arithmetic of [float] *)

Class FloatArith (F : Type) := {
  (** a numeric literal of the source, read as a float *)
  lit : Q -> F;
  (** an [int] operand promoted to [float] in mixed arithmetic *)
  of_int : Z -> result F;
  fadd : F -> F -> F;
  fsub : F -> F -> F;
  fmul : F -> F -> F;
  (** the quotient, for a divisor that is not zero *)
  fdiv : F -> F -> F;
  (** [==] and [<=] *)
  feqb : F -> F -> bool;
  fleb : F -> F -> bool;
  (** [round(x)] with one argument *)
  fround : F -> result Z
}.

Declare Scope py_scope.
Delimit Scope py_scope with py.
Notation "x + y" := (fadd x y) : py_scope.
Notation "x - y" := (fsub x y) : py_scope.
Notation "x * y" := (fmul x y) : py_scope.
Notation "x == y" := (feqb x y) (at level 70, no associativity) : py_scope.
Notation "x <= y" := (fleb x y) : py_scope.
Notation "x >= y" := (fleb y x) : py_scope.

(** [x / y] raises ZeroDivisionError when [y == 0]. *)
Definition py_div {F} `{FloatArith F} (x y : F) : result F :=
  if (y == lit 0)%py then Raise ZeroDivisionError else Ok (fdiv x y).
Notation "x / y" := (py_div x y) : py_scope.

(** *** Exact rationals *)

#[global] Instance exact : FloatArith Q := {|
  lit q := q;
  of_int n := Ok (inject_Z n);
  fadd := Qplus;
  fsub := Qminus;
  fmul := Qmult;
  fdiv := Qdiv;
  feqb := Qeq_bool;
  fleb := Qle_bool;
  fround q := Ok (round_half_even q)
|}.

(** *** IEEE 754 binary64 *)

(** The double nearest to an integer (ties to even); infinite from
    [2^1024 - 2^970] on. *)
Definition Z2SF (n : Z) : spec_float := binary_normalize prec emax n 0 false.

#[global] Instance binary64 : FloatArith float := {|
  (** numerator and denominator of the literals of the source are below
      [2^53], so this one correctly rounded division is the double nearest
      to the literal *)
  lit q := PrimFloat.div (SF2Prim (Z2SF (Qnum q))) (SF2Prim (Z2SF (Z.pos (Qden q))));
  of_int n :=
    match Z2SF n with
    | S754_infinity _ => Raise OverflowError
    | sf => Ok (SF2Prim sf)
    end;
  fadd := PrimFloat.add;
  fsub := PrimFloat.sub;
  fmul := PrimFloat.mul;
  fdiv := PrimFloat.div;
  feqb := PrimFloat.eqb;
  fleb := PrimFloat.leb;
  fround x :=
    match Prim2SF x with
    | S754_zero _ => Ok 0
    | S754_infinity _ => Raise OverflowError
    | S754_nan => Raise (ValueError "cannot convert float NaN to integer")
    | S754_finite s m e => Ok (round_half_even (SF2Q s m e))
    end
|}.

(** ** The engine *)

Section Engine.
Context {F : Type} `{FloatArith F}.
Local Open Scope py_scope.

(** Cable data (resistance per meter in Ohms/meter at 20 degrees C). *)
Definition CABLE_DATA : gmap string (gmap string F) :=
  {[ "alarm"%string :=
       {[ "18 AWG"%string := lit 0.0209%Q;
          "22 AWG"%string := lit 0.0333%Q;
          "24 AWG"%string := lit 0.0529%Q ]};
     "network"%string :=
       {[ "Cat5e"%string := lit 0.0938%Q;
          "Cat6"%string := lit 0.0700%Q ]} ]}.

(** The five keys of [CABLE_DATA], as (cable type, conductor) pairs. *)
Definition catalog_pairs : list (string * string) :=
  [ ("alarm", "18 AWG"); ("alarm", "22 AWG"); ("alarm", "24 AWG");
    ("network", "Cat5e"); ("network", "Cat6") ]%string.

(** The rows of [CABLE_DATA]. *)
Definition catalog_rows : list (string * string * F) :=
  [ ("alarm", "18 AWG", lit 0.0209%Q); ("alarm", "22 AWG", lit 0.0333%Q);
    ("alarm", "24 AWG", lit 0.0529%Q);
    ("network", "Cat5e", lit 0.0938%Q); ("network", "Cat6", lit 0.0700%Q) ]%string.

(** Temperature coefficient for copper (alpha at 20 degrees C). *)
Definition ALPHA_COPPER : F := lit 0.00393%Q.

Definition invalid_cable : pyexn :=
  ValueError "Invalid cable type or conductor specification.".

(** The guard and the indexing that open both functions:
    [if cable_type not in CABLE_DATA or conductor_spec not in
    CABLE_DATA[cable_type]: raise ValueError(...)], then
    [CABLE_DATA[cable_type][conductor_spec]]. *)
Definition resistance_per_meter_at_20c
    (cable_type conductor_spec : string) : result F :=
  match CABLE_DATA !! cable_type with
  | None => Raise invalid_cable
  | Some specs =>
      match specs !! conductor_spec with
      | None => Raise invalid_cable
      | Some r => Ok r
      end
  end.

(** Adjust resistance for temperature:
    [resistance_per_meter_at_20c * (1 + ALPHA_COPPER * (temp_c - 20))]. *)
Definition resistance_per_meter_at_temp (r20 temp_c : F) : F :=
  r20 * (lit 1 + ALPHA_COPPER * (temp_c - lit 20)).

Definition calculate_voltage_drop
    (length_m current_a : F) (cable_type conductor_spec : string)
    (num_cores : Z) (temp_c : F) : result F :=
  r20 ← resistance_per_meter_at_20c cable_type conductor_spec;
  let r_temp := resistance_per_meter_at_temp r20 temp_c in
  cores ← of_int num_cores;
  total_resistance ← (r_temp * length_m * lit 2) / cores;
  let voltage_drop := current_a * total_resistance in
  Ok voltage_drop.

Definition determine_cores_required
    (length_m required_voltage required_current : F)
    (cable_type conductor_spec : string)
    (min_voltage_percent_drop temp_c : F) : result pyvalue :=
  r20 ← resistance_per_meter_at_20c cable_type conductor_spec;
  let r_temp := resistance_per_meter_at_temp r20 temp_c in
  fraction ← min_voltage_percent_drop / lit 100;
  let max_allowed_voltage_drop := required_voltage * fraction in
  if required_current == lit 0 then
    Ok (if max_allowed_voltage_drop >= lit 0 then PyInt 1 else PyFloat infinity)
  else
    max_allowed_resistance ← max_allowed_voltage_drop / required_current;
    let single_path_resistance := r_temp * length_m * lit 2 in
    if max_allowed_resistance <= lit 0 then Ok (PyFloat infinity)
    else
      cores_needed ← single_path_resistance / max_allowed_resistance;
      rounded ← fround cores_needed;
      Ok (PyInt (Z.max 1 rounded)).

End Engine.

(** ** The caller: the methods of [CableCalculatorGUI] *)

(** Python's [>] between a float and an int compares the two values
    exactly. *)
Definition float_gt_int (x : float) (n : Z) : bool :=
  match Prim2SF x with
  | S754_zero _ => (n <? 0)%Z
  | S754_finite s m e => negb (Qle_bool (SF2Q s m e) (inject_Z n))
  | S754_infinity s => negb s
  | S754_nan => false
  end.

Definition float_lt_int (x : float) (n : Z) : bool :=
  match Prim2SF x with
  | S754_zero _ => (0 <? n)%Z
  | S754_finite s m e => negb (Qle_bool (inject_Z n) (SF2Q s m e))
  | S754_infinity s => s
  | S754_nan => false
  end.

(** Python's [v > w] on the objects the solver hands back. *)
Definition py_gt (v w : pyvalue) : bool :=
  match v, w with
  | PyInt a, PyInt b => (b <? a)%Z
  | PyFloat x, PyFloat y => PrimFloat.ltb y x
  | PyFloat x, PyInt n => float_gt_int x n
  | PyInt n, PyFloat x => float_lt_int x n
  end.

Section Calculate.
Context {F : Type} `{FloatArith F}.
Local Open Scope py_scope.

(** [str] of a float is Python's shortest round-trip representation; it
    is not modelled and stays a parameter. *)
Variable float_str : float -> string.

(** [f"{cores_needed}"]: [str] of an int is its decimal numeral. *)
Definition py_str (v : pyvalue) : string :=
  match v with
  | PyInt n => pretty n
  | PyFloat x => float_str x
  end.

(** Lines 286 to 291 of [calculate]: the text the wiring recommendation
    label is set to, or [None] when no branch of the if/elif chain is
    taken and the label keeps its old text. *)
Definition wiring_recommendation
    (cores_needed : pyvalue) (conductor_spec : string) : option string :=
  if py_eq cores_needed (PyInt 1) then
    Some ("Use 1 core of " +:+ conductor_spec)
  else if py_gt cores_needed (PyInt 1)
          && negb (py_eq cores_needed (PyFloat infinity)) then
    Some ("Use " +:+ py_str cores_needed +:+ " parallel cores of "
          +:+ conductor_spec)
  else if py_eq cores_needed (PyFloat infinity) then
    Some "Impossible to meet requirements with this cable."
  else None.

(** [CABLE_DATA] once more, as the dict literal lists its items: a dict
    iterates in insertion order, which [gmap] does not keep. *)
Definition CABLE_DATA_items : list (string * list (string * F)) :=
  [ ("alarm", [ ("18 AWG", lit 0.0209%Q);
                ("22 AWG", lit 0.0333%Q);
                ("24 AWG", lit 0.0529%Q) ]);
    ("network", [ ("Cat5e", lit 0.0938%Q);
                  ("Cat6", lit 0.0700%Q) ]) ]%string.

End Calculate.

(** [d.get(key)] on the items of a dict. *)
Fixpoint items_get {A : Type} (key : string) (items : list (string * A))
    : option A :=
  match items with
  | [] => None
  | (k, a) :: rest => if decide (k = key) then Some a else items_get key rest
  end.

(** [list(CABLE_DATA.keys())]. *)
Definition cable_types : list string :=
  (CABLE_DATA_items (F := Q)).*1.

(** [list(CABLE_DATA.get(cable_type, {}).keys())]. *)
Definition conductor_specs (cable_type : string) : list string :=
  match items_get cable_type (CABLE_DATA_items (F := Q)) with
  | Some specs => specs.*1
  | None => []
  end.

(** The text of the seven input widgets, in the order [create_input_widgets]
    fills [self.entries]; the two comboboxes show their text variable. *)
Record entries := {
  cable_type_entry : string;
  conductor_spec_entry : string;
  length_entry : string;
  voltage_entry : string;
  current_entry : string;
  num_cores_entry : string;
  temp_entry : string
}.

(** The text of the five result labels of [create_results_widgets]. *)
Record results_labels := {
  vd_result : string;
  vd_percent : string;
  cd_result : string;
  cores_required : string;
  wiring_rec : string
}.

(** What the methods read and write of the window. *)
Record gui := {
  gui_entries : entries;
  (** [self.entries["conductor_spec"]["values"]] *)
  conductor_spec_values : list string;
  forward_mode : bool;
  gui_results : results_labels
}.

Definition entry_keys : list string :=
  [ "cable_type"; "conductor_spec"; "length"; "voltage"; "current";
    "num_cores"; "temp" ]%string.

(** [isinstance(self.entries[key], tk.StringVar)]: every entry but the two
    comboboxes. *)
Definition is_string_var (key : string) : bool :=
  bool_decide (key ∈ [ "length"; "voltage"; "current"; "num_cores"; "temp" ]%string).

(** [self.entries[key].set(value)]. *)
Definition set_entry (key value : string) (e : entries) : entries :=
  if decide (key = "cable_type"%string) then
    {| cable_type_entry := value;
       conductor_spec_entry := conductor_spec_entry e;
       length_entry := length_entry e; voltage_entry := voltage_entry e;
       current_entry := current_entry e; num_cores_entry := num_cores_entry e;
       temp_entry := temp_entry e |}
  else if decide (key = "conductor_spec"%string) then
    {| cable_type_entry := cable_type_entry e;
       conductor_spec_entry := value;
       length_entry := length_entry e; voltage_entry := voltage_entry e;
       current_entry := current_entry e; num_cores_entry := num_cores_entry e;
       temp_entry := temp_entry e |}
  else if decide (key = "length"%string) then
    {| cable_type_entry := cable_type_entry e;
       conductor_spec_entry := conductor_spec_entry e;
       length_entry := value; voltage_entry := voltage_entry e;
       current_entry := current_entry e; num_cores_entry := num_cores_entry e;
       temp_entry := temp_entry e |}
  else if decide (key = "voltage"%string) then
    {| cable_type_entry := cable_type_entry e;
       conductor_spec_entry := conductor_spec_entry e;
       length_entry := length_entry e; voltage_entry := value;
       current_entry := current_entry e; num_cores_entry := num_cores_entry e;
       temp_entry := temp_entry e |}
  else if decide (key = "current"%string) then
    {| cable_type_entry := cable_type_entry e;
       conductor_spec_entry := conductor_spec_entry e;
       length_entry := length_entry e; voltage_entry := voltage_entry e;
       current_entry := value; num_cores_entry := num_cores_entry e;
       temp_entry := temp_entry e |}
  else if decide (key = "num_cores"%string) then
    {| cable_type_entry := cable_type_entry e;
       conductor_spec_entry := conductor_spec_entry e;
       length_entry := length_entry e; voltage_entry := voltage_entry e;
       current_entry := current_entry e; num_cores_entry := value;
       temp_entry := temp_entry e |}
  else if decide (key = "temp"%string) then
    {| cable_type_entry := cable_type_entry e;
       conductor_spec_entry := conductor_spec_entry e;
       length_entry := length_entry e; voltage_entry := voltage_entry e;
       current_entry := current_entry e; num_cores_entry := num_cores_entry e;
       temp_entry := value |}
  else e.

Definition with_entry (key value : string) (g : gui) : gui :=
  {| gui_entries := set_entry key value (gui_entries g);
     conductor_spec_values := conductor_spec_values g;
     forward_mode := forward_mode g;
     gui_results := gui_results g |}.

(** [update_conductor_specs]: offer the conductors of the selected cable
    type and select the first of them, or the empty text when there is
    none. *)
Definition update_conductor_specs (g : gui) : gui :=
  let selected_cable_type := cable_type_entry (gui_entries g) in
  let specs := conductor_specs selected_cable_type in
  let g1 :=
    {| gui_entries := gui_entries g;
       conductor_spec_values := specs;
       forward_mode := forward_mode g;
       gui_results := gui_results g |} in
  match specs with
  | first :: _ => with_entry "conductor_spec" first g1
  | [] => with_entry "conductor_spec" "" g1
  end.

Definition cd_result_text : string :=
  "N/A (Current is assumed constant for voltage drop)".

(** One turn of the first loop of [reset_inputs]. *)
Definition reset_entry (g : gui) (key : string) : gui :=
  if decide (key = "cable_type"%string) then
    update_conductor_specs (with_entry key (default ""%string (head cable_types)) g)
  else if decide (key = "num_cores"%string) then with_entry key "1" g
  else if decide (key = "temp"%string) then with_entry key "20" g
  else if is_string_var key then with_entry key "" g
  else g.

(** [reset_inputs]: the loop over [self.entries], the mode, then the loop
    over [self.results_labels]. *)
Definition reset_inputs (g : gui) : gui :=
  let g1 := foldl reset_entry g entry_keys in
  {| gui_entries := gui_entries g1;
     conductor_spec_values := conductor_spec_values g1;
     forward_mode := true;
     gui_results :=
       {| vd_result := ""; vd_percent := ""; cd_result := cd_result_text;
          cores_required := ""; wiring_rec := "" |} |}.

(** The window as [__init__] leaves it: the entries with their default
    texts, the forward mode, empty result labels but for the current drop,
    and [update_conductor_specs] run once at the end. *)
Definition initial_gui : gui :=
  update_conductor_specs
    {| gui_entries :=
         {| cable_type_entry := default ""%string (head cable_types);
            conductor_spec_entry := "";
            length_entry := ""; voltage_entry := ""; current_entry := "";
            num_cores_entry := "1"; temp_entry := "20" |};
       conductor_spec_values := [];
       forward_mode := true;
       gui_results :=
         {| vd_result := ""; vd_percent := ""; cd_result := cd_result_text;
            cores_required := ""; wiring_rec := "" |} |}.

(** ** binary64: sign classes *)

(** A double that is not below zero: a zero of either sign, a positive
    number, plus infinity, or NaN. *)
Definition sf_not_negative (x : spec_float) : bool :=
  match x with
  | S754_zero _ | S754_nan => true
  | S754_finite s _ _ | S754_infinity s => negb s
  end.

(** A positive number, plus infinity, or NaN: what a divisor may be. *)
Definition sf_positive_or_nan (x : spec_float) : bool :=
  match x with
  | S754_zero _ => false
  | S754_nan => true
  | S754_finite s _ _ | S754_infinity s => negb s
  end.

(** ** binary64: how far a rounded result is from what it rounds *)

(** A shift record [mrs] locates a number [y >= 0]: [shr_m mrs] is its
    integer part, and the two bits tell whether the rest is zero, below one
    half, one half, or above. *)
Definition located (mrs : shr_record) (y : Q) : Prop :=
  (0 <= shr_m mrs)%Z /\
  match shr_r mrs, shr_s mrs with
  | false, false => (y == inject_Z (shr_m mrs))%Q
  | false, true =>
      (inject_Z (shr_m mrs) < y /\ y < inject_Z (shr_m mrs) + (1 # 2))%Q
  | true, false => (y == inject_Z (shr_m mrs) + (1 # 2))%Q
  | true, true =>
      (inject_Z (shr_m mrs) + (1 # 2) < y /\ y < inject_Z (shr_m mrs) + 1)%Q
  end.

(** [2^n] as a rational. *)
Definition two_to (n : positive) : Q := inject_Z (2 ^ Z.pos n).

(** A normal double: finite, not zero, with a full 53-bit significand
    (at least [sys.float_info.min] in magnitude). *)
Definition isnormal (x : float) : bool :=
  match Prim2SF x with
  | S754_finite _ m _ => (Z.pos (digits2_pos m) =? prec)%Z
  | _ => false
  end.

(** [3 * 2^-53]: the relative error allowed to one multiplication or
    division with a normal result. *)
Definition eta : Q := 3 # 2 ^ 53.

(** The same for two and for four operations in a row. *)
Definition eta2 : Q := (eta + eta + eta * eta)%Q.
Definition eta4 : Q := (eta2 + eta2 + eta2 * eta2)%Q.

Definition sign_of (s : bool) : Q := if s then (- (1))%Q else 1%Q.

(** [near u x]: [x] is within [u] of one. *)
Definition near (u x : Q) : Prop := (1 - u <= x /\ x <= 1 + u)%Q.

(** The products and the quotient of lines 51 and 54 of
    [calculate_voltage_drop], in the order Python evaluates them, are all
    normal doubles: none overflows, underflows or is zero. *)
Definition drop_is_normal (r_temp length_m cores current_a : float) : bool :=
  isnormal (r_temp * length_m)%float
  && isnormal (r_temp * length_m * 2)%float
  && isnormal (r_temp * length_m * 2 / cores)%float
  && isnormal (current_a * (r_temp * length_m * 2 / cores))%float.

(** The relative tolerance of the proportionality laws of the drop. *)
Definition tolerance : Q := 1 # 2 ^ 48.

(** ** The catalog *)

Section Catalog.
Context {F : Type} `{FloatArith F}.

Lemma alarm_18 : resistance_per_meter_at_20c "alarm" "18 AWG" = Ok (lit 0.0209%Q).
Proof. reflexivity. Qed.

Lemma alarm_22 : resistance_per_meter_at_20c "alarm" "22 AWG" = Ok (lit 0.0333%Q).
Proof. reflexivity. Qed.

Lemma alarm_24 : resistance_per_meter_at_20c "alarm" "24 AWG" = Ok (lit 0.0529%Q).
Proof. reflexivity. Qed.

Lemma network_cat5e : resistance_per_meter_at_20c "network" "Cat5e" = Ok (lit 0.0938%Q).
Proof. reflexivity. Qed.

Lemma network_cat6 : resistance_per_meter_at_20c "network" "Cat6" = Ok (lit 0.0700%Q).
Proof. reflexivity. Qed.

Ltac split_key k :=
  repeat match goal with
  | |- context [ <[?a := _]> _ !! k ] =>
      destruct (decide (a = k)) as [<- | ?];
      [ rewrite lookup_insert_eq | rewrite lookup_insert_ne by assumption ]
  | |- context [ {[?a := _]} !! k ] =>
      destruct (decide (a = k)) as [<- | ?];
      [ rewrite lookup_singleton_eq | rewrite lookup_singleton_ne by assumption ]
  end.

(** Every lookup either finds one of the five rows or raises the
    ValueError, and it raises exactly off the five keys. *)
Lemma resistance_cases (cable_type conductor_spec : string) :
  match resistance_per_meter_at_20c cable_type conductor_spec with
  | Ok r => (cable_type, conductor_spec, r) ∈ catalog_rows
  | Raise e => e = invalid_cable /\ (cable_type, conductor_spec) ∉ catalog_pairs
  end.
Proof.
  unfold resistance_per_meter_at_20c, CABLE_DATA, catalog_rows, catalog_pairs.
  split_key cable_type; split_key conductor_spec;
    try (split; [reflexivity | ]);
    rewrite ?elem_of_cons, ?elem_of_nil; intuition congruence.
Qed.

Lemma resistance_found (cable_type conductor_spec : string) (r : F) :
  resistance_per_meter_at_20c cable_type conductor_spec = Ok r ->
  (cable_type, conductor_spec, r) ∈ catalog_rows.
Proof.
  intros E. pose proof (resistance_cases cable_type conductor_spec) as C.
  rewrite E in C. exact C.
Qed.

Lemma resistance_missing (cable_type conductor_spec : string) :
  (cable_type, conductor_spec) ∉ catalog_pairs ->
  resistance_per_meter_at_20c cable_type conductor_spec = Raise invalid_cable.
Proof.
  intros N. pose proof (resistance_cases cable_type conductor_spec) as C.
  destruct (resistance_per_meter_at_20c cable_type conductor_spec) as [r | e].
  - exfalso. apply N. unfold catalog_rows, catalog_pairs in *.
    rewrite ?elem_of_cons, ?elem_of_nil in *. intuition congruence.
  - destruct C as [-> _]. reflexivity.
Qed.

Lemma calculate_voltage_drop_missing
    (length_m current_a : F) (cable_type conductor_spec : string)
    (num_cores : Z) (temp_c : F) :
  (cable_type, conductor_spec) ∉ catalog_pairs ->
  calculate_voltage_drop length_m current_a cable_type conductor_spec
    num_cores temp_c = Raise invalid_cable.
Proof.
  intros N. unfold calculate_voltage_drop.
  rewrite (resistance_missing _ _ N). reflexivity.
Qed.

Lemma determine_cores_required_missing
    (length_m required_voltage required_current : F)
    (cable_type conductor_spec : string)
    (min_voltage_percent_drop temp_c : F) :
  (cable_type, conductor_spec) ∉ catalog_pairs ->
  determine_cores_required length_m required_voltage required_current
    cable_type conductor_spec min_voltage_percent_drop temp_c
  = Raise invalid_cable.
Proof.
  intros N. unfold determine_cores_required.
  rewrite (resistance_missing _ _ N). reflexivity.
Qed.

End Catalog.

(** ** The paths through the two functions, at any arithmetic *)

Section Paths.
Context {F : Type} `{FloatArith F}.
Local Open Scope py_scope.

Lemma py_div_nonzero (x y : F) :
  (y == lit 0) = false -> x / y = Ok (fdiv x y).
Proof. unfold py_div. intros ->. reflexivity. Qed.

Lemma py_div_zero (x y : F) :
  (y == lit 0) = true -> x / y = Raise ZeroDivisionError.
Proof. unfold py_div. intros ->. reflexivity. Qed.

Lemma drop_returns (length_m current_a : F) (cable_type conductor_spec : string)
    (num_cores : Z) (temp_c r20 cores : F) :
  resistance_per_meter_at_20c cable_type conductor_spec = Ok r20 ->
  of_int num_cores = Ok cores ->
  (cores == lit 0) = false ->
  calculate_voltage_drop length_m current_a cable_type conductor_spec
    num_cores temp_c
  = Ok (current_a *
        fdiv (resistance_per_meter_at_temp r20 temp_c * length_m * lit 2) cores).
Proof.
  intros E C N. unfold calculate_voltage_drop.
  rewrite E. cbn. rewrite C. cbn. rewrite (py_div_nonzero _ _ N). reflexivity.
Qed.

Lemma drop_raises (length_m current_a : F) (cable_type conductor_spec : string)
    (num_cores : Z) (temp_c r20 cores : F) :
  resistance_per_meter_at_20c cable_type conductor_spec = Ok r20 ->
  of_int num_cores = Ok cores ->
  (cores == lit 0) = true ->
  calculate_voltage_drop length_m current_a cable_type conductor_spec
    num_cores temp_c
  = Raise ZeroDivisionError.
Proof.
  intros E C N. unfold calculate_voltage_drop.
  rewrite E. cbn. rewrite C. cbn. rewrite (py_div_zero _ _ N). reflexivity.
Qed.

Variables (length_m required_voltage required_current : F).
Variables (cable_type conductor_spec : string).
Variables (min_voltage_percent_drop temp_c r20 : F).
Hypothesis found : resistance_per_meter_at_20c cable_type conductor_spec = Ok r20.
Hypothesis hundred : (lit 100 == lit 0) = false.

Let max_allowed_voltage_drop : F :=
  required_voltage * fdiv min_voltage_percent_drop (lit 100).
Let max_allowed_resistance : F := fdiv max_allowed_voltage_drop required_current.
Let single_path_resistance : F :=
  resistance_per_meter_at_temp r20 temp_c * length_m * lit 2.

(** Line 81: the zero-current guard answers before anything else is looked at. *)
Lemma cores_zero_current :
  (required_current == lit 0) = true ->
  determine_cores_required length_m required_voltage required_current
    cable_type conductor_spec min_voltage_percent_drop temp_c
  = Ok (if max_allowed_voltage_drop >= lit 0 then PyInt 1 else PyFloat infinity).
Proof.
  intros Z0. unfold determine_cores_required.
  rewrite found. cbn. rewrite (py_div_nonzero _ _ hundred). cbn.
  rewrite Z0. reflexivity.
Qed.

(** Line 90. *)
Lemma cores_impossible :
  (required_current == lit 0) = false ->
  (max_allowed_resistance <= lit 0) = true ->
  determine_cores_required length_m required_voltage required_current
    cable_type conductor_spec min_voltage_percent_drop temp_c
  = Ok (PyFloat infinity).
Proof.
  intros Z0 L. unfold determine_cores_required.
  rewrite found. cbn. rewrite (py_div_nonzero _ _ hundred). cbn.
  rewrite Z0. rewrite (py_div_nonzero _ _ Z0). cbn.
  fold max_allowed_voltage_drop. fold max_allowed_resistance.
  rewrite L. reflexivity.
Qed.

(** Lines 92 and 93. *)
Lemma cores_rounded :
  (required_current == lit 0) = false ->
  (max_allowed_resistance <= lit 0) = false ->
  (max_allowed_resistance == lit 0) = false ->
  determine_cores_required length_m required_voltage required_current
    cable_type conductor_spec min_voltage_percent_drop temp_c
  = (rounded ← fround (fdiv single_path_resistance max_allowed_resistance);
     Ok (PyInt (Z.max 1 rounded))).
Proof.
  intros Z0 L N. unfold determine_cores_required.
  rewrite found. cbn. rewrite (py_div_nonzero _ _ hundred). cbn.
  rewrite Z0. rewrite (py_div_nonzero _ _ Z0). cbn.
  fold max_allowed_voltage_drop. fold max_allowed_resistance.
  rewrite L. rewrite (py_div_nonzero _ _ N). reflexivity.
Qed.

End Paths.

(** ** Exact arithmetic: comparisons and rounding *)

Local Open Scope Q_scope.

Lemma exact_eqb_true (x : Q) : x == 0 -> Qeq_bool x 0 = true.
Proof. intros E. apply Qeq_bool_iff. exact E. Qed.


Lemma exact_leb_true (x y : Q) : x <= y -> Qle_bool x y = true.
Proof. intros L. apply Qle_bool_iff. exact L. Qed.

Lemma exact_leb_false (x y : Q) : y < x -> Qle_bool x y = false.
Proof.
  intros L. destruct (Qle_bool x y) eqn:E; [ | reflexivity ].
  apply Qle_bool_iff in E. exfalso. apply (Qlt_not_le _ _ L E).
Qed.

Lemma exact_hundred : feqb (lit 100 : Q) (lit 0) = false.
Proof. reflexivity. Qed.

Lemma binary64_hundred : feqb (lit 100 : float) (lit 0) = false.
Proof. vm_compute. reflexivity. Qed.


(** [round_half_even q] is an integer nearest to [q]. *)
Lemma round_half_even_nearest (q : Q) :
  Qabs (q - inject_Z (round_half_even q)) <= 1 # 2.
Proof.
  destruct q as [n d]. unfold round_half_even. cbn [Qnum Qden].
  pose proof (Z.div_mod n (Z.pos d) ltac:(lia)) as DM.
  pose proof (Z.mod_pos_bound n (Z.pos d) ltac:(lia)) as B.
  set (f := (n / Z.pos d)%Z) in *. set (m := (n mod Z.pos d)%Z) in *.
  assert (A : forall k : Z, (-(Z.pos d) <= 2 * (n - k * Z.pos d) <= Z.pos d)%Z ->
            Qabs ((n # d) - inject_Z k) <= 1 # 2).
  { intros k K. apply Qabs_Qle_condition. unfold Qle, Qminus, Qplus, Qopp, inject_Z.
    cbn. split; nia. }
  destruct (Z.compare_spec (2 * m) (Z.pos d)) as [E | L | G].
  - destruct (Z.even f); apply A; nia.
  - apply A; nia.
  - apply A; nia.
Qed.

Lemma resistance_present {F : Type} `{FloatArith F} (cable_type conductor_spec : string) :
  (cable_type, conductor_spec) ∈ catalog_pairs ->
  exists r20 : F, resistance_per_meter_at_20c cable_type conductor_spec = Ok r20.
Proof.
  unfold catalog_pairs. rewrite ?elem_of_cons, ?elem_of_nil.
  intros [E | [E | [E | [E | [E | []]]]]]; injection E as -> ->;
    eexists; reflexivity.
Qed.


(** ** binary64: signs *)

Lemma b64_lit_0 : (lit 0 : float) = 0%float.
Proof. vm_compute. reflexivity. Qed.

Lemma b64_lit_1 : (lit 1 : float) = 1%float.
Proof. vm_compute. reflexivity. Qed.

Lemma b64_lit_2 : (lit 2 : float) = 2%float.
Proof. vm_compute. reflexivity. Qed.

Lemma b64_lit_20 : (lit 20 : float) = 20%float.
Proof. vm_compute. reflexivity. Qed.

Lemma b64_lit_100 : (lit 100 : float) = 100%float.
Proof. vm_compute. reflexivity. Qed.

Lemma b64_alpha : (ALPHA_COPPER : float) = 0.00393%float.
Proof. vm_compute. reflexivity. Qed.

Lemma Prim2SF_0 : Prim2SF 0 = S754_zero false.
Proof. vm_compute. reflexivity. Qed.

Lemma binary_round_aux_sign (m e : Z) (l : location) :
  sf_not_negative (binary_round_aux prec emax false m e l) = true.
Proof.
  unfold binary_round_aux.
  destruct (shr_fexp prec emax m e l) as [mrs1 e1].
  destruct (shr_fexp prec emax _ e1 loc_Exact) as [mrs2 e2].
  destruct (shr_m mrs2); [ reflexivity | | reflexivity ].
  destruct (e2 <=? emax - prec)%Z; reflexivity.
Qed.

Lemma binary_round_sign (m : positive) (e : Z) :
  sf_not_negative (binary_round prec emax false m e) = true.
Proof.
  unfold binary_round. destruct (shl_align m e _) as [mz ez].
  apply binary_round_aux_sign.
Qed.

Lemma SFmul_not_negative (x y : spec_float) :
  sf_not_negative x = true -> sf_not_negative y = true ->
  sf_not_negative (SFmul prec emax x y) = true.
Proof.
  destruct x as [sx | sx | | sx mx ex], y as [sy | sy | | sy my ey];
    cbn; intros X Y; try reflexivity;
    try (apply negb_true_iff in X; subst sx);
    try (apply negb_true_iff in Y; subst sy);
    try reflexivity.
  apply binary_round_aux_sign.
Qed.

Lemma SFdiv_not_negative (x y : spec_float) :
  sf_not_negative x = true -> sf_positive_or_nan y = true ->
  sf_not_negative (SFdiv prec emax x y) = true.
Proof.
  destruct x as [sx | sx | | sx mx ex], y as [sy | sy | | sy my ey];
    cbn; intros X Y; try reflexivity; try discriminate Y;
    try (apply negb_true_iff in X; subst sx);
    try (apply negb_true_iff in Y; subst sy);
    try reflexivity.
  destruct (SFdiv_core_binary prec emax (Z.pos mx) ex (Z.pos my) ey)
    as [[mz ez] lz].
  apply binary_round_aux_sign.
Qed.

Lemma ltb_0_positive (x : float) :
  (0 <? x)%float = true ->
  sf_not_negative (Prim2SF x) = true
  /\ sf_positive_or_nan (Prim2SF x) = true /\ isnan x = false.
Proof.
  rewrite FloatAxioms.ltb_spec, Prim2SF_0. unfold SFltb, isnan.
  destruct (Prim2SF x) as [s | [ | ] | | [ | ] m e]; cbn;
    intros E; try discriminate E; repeat split.
Qed.

Lemma leb_0_not_negative (x : float) :
  (0 <=? x)%float = true ->
  sf_not_negative (Prim2SF x) = true /\ isnan x = false.
Proof.
  rewrite FloatAxioms.leb_spec, Prim2SF_0. unfold SFleb, isnan.
  destruct (Prim2SF x) as [s | [ | ] | | [ | ] m e]; cbn;
    intros E; try discriminate E; repeat split.
Qed.

Lemma not_negative_compare (x : float) :
  sf_not_negative (Prim2SF x) = true ->
  (x <? 0)%float = false
  /\ ((0 <=? x)%float = true \/ isnan x = true).
Proof.
  rewrite FloatAxioms.ltb_spec, FloatAxioms.leb_spec, Prim2SF_0.
  unfold SFltb, SFleb, isnan.
  destruct (Prim2SF x) as [s | [ | ] | | [ | ] m e]; cbn;
    intros E; try discriminate E; split; try reflexivity; tauto.
Qed.

Lemma eqb_0_false_not_zero (x : float) :
  (x =? 0)%float = false ->
  forall s : bool, Prim2SF x <> S754_zero s.
Proof.
  rewrite FloatAxioms.eqb_spec, Prim2SF_0. unfold SFeqb.
  intros E s Z0. rewrite Z0 in E. discriminate E.
Qed.

Lemma eqb_0_true_zero (x : float) :
  (x =? 0)%float = true -> exists s : bool, Prim2SF x = S754_zero s.
Proof.
  rewrite FloatAxioms.eqb_spec, Prim2SF_0. unfold SFeqb.
  destruct (Prim2SF x) as [s | [ | ] | | [ | ] m e]; cbn;
    intros E; try discriminate E. exists s. reflexivity.
Qed.

(** The double a positive int converts to is not below zero. *)
Lemma of_int_not_negative (n : Z) (cores : float) :
  (1 <= n)%Z -> of_int n = Ok cores ->
  sf_not_negative (Prim2SF cores) = true.
Proof.
  intros N E. destruct n as [ | p | p ]; try lia.
  cbn [of_int binary64] in E. unfold Z2SF, binary_normalize in E.
  pose proof (binary_round_sign p 0) as S.
  destruct (binary_round prec emax false p 0) as [s | s | | s m e].
  - injection E as <-. destruct s; vm_compute; reflexivity.
  - discriminate E.
  - injection E as <-. vm_compute. reflexivity.
  - injection E as <-. cbn in S. apply negb_true_iff in S. subst s.
    unfold SF2Prim. rewrite Z_ldexp_spec, of_uint63_spec.
    unfold binary_normalize.
    match goal with
    | |- context [ Uint63Axioms.to_Z ?x ] =>
        pose proof (Uint63.to_Z_bounded x) as B;
        destruct (Uint63Axioms.to_Z x) as [ | q | q ]
    end; [ reflexivity | | lia ].
    pose proof (binary_round_sign q 0) as S2. unfold SFldexp.
    destruct (binary_round prec emax false q 0) as [s2 | s2 | | s2 m2 e2];
      try exact S2.
    cbn in S2. apply negb_true_iff in S2. subst s2.
    apply binary_round_sign.
Qed.

Lemma divisor_positive_or_nan (x : float) :
  sf_not_negative (Prim2SF x) = true -> (x =? 0)%float = false ->
  sf_positive_or_nan (Prim2SF x) = true.
Proof.
  intros S Z0. pose proof (eqb_0_false_not_zero x Z0) as NZ.
  destruct (Prim2SF x) as [s | s | | s m e]; try exact S.
  exfalso. exact (NZ s eq_refl).
Qed.

(** The tabulated resistances are positive doubles. *)
Lemma b64_resistance_positive (cable_type conductor_spec : string) (r20 : float) :
  resistance_per_meter_at_20c cable_type conductor_spec = Ok r20 ->
  sf_not_negative (Prim2SF r20) = true.
Proof.
  intros E. apply resistance_found in E. unfold catalog_rows in E.
  rewrite ?elem_of_cons, ?elem_of_nil in E.
  destruct E as [E | [E | [E | [E | [E | []]]]]];
    injection E as _ _ ->; vm_compute; reflexivity.
Qed.

(** ** binary64: rounding errors *)

Lemma located_bounds (mrs : shr_record) (y : Q) :
  located mrs y -> inject_Z (shr_m mrs) <= y /\ y < inject_Z (shr_m mrs) + 1.
Proof.
  intros [_ L]. destruct (shr_r mrs), (shr_s mrs); lra.
Qed.

Lemma inject_Z_double (p : positive) : inject_Z (Z.pos p~0) == 2 * inject_Z (Z.pos p).
Proof. unfold Qeq, Qmult, inject_Z. cbn. lia. Qed.

Lemma inject_Z_double_1 (p : positive) :
  inject_Z (Z.pos p~1) == 2 * inject_Z (Z.pos p) + 1.
Proof.
  unfold Qeq, Qmult, Qplus, inject_Z. cbn. lia.
Qed.

(** One shift to the right halves the number located. *)
Lemma shr_1_located (mrs : shr_record) (y : Q) :
  located mrs y -> located (shr_1 mrs) (y * (1 # 2)).
Proof.
  destruct mrs as [m r s]. unfold located. cbn [shr_m shr_r shr_s].
  intros [M L]. destruct m as [ | [p | p | ] | p ]; try lia; cbn [shr_1 shr_m shr_r shr_s].
  - (* 0 *) split; [ lia | ].
    change (inject_Z 0) with 0 in *.
    destruct r, s; cbn [orb]; lra.
  - (* 2p+1 *) split; [ lia | ].
    pose proof (inject_Z_double_1 p) as D.
    destruct r, s; cbn [orb]; lra.
  - (* 2p *) split; [ lia | ].
    pose proof (inject_Z_double p) as D.
    destruct r, s; cbn [orb]; lra.
  - (* 1 *) split; [ lia | ].
    change (inject_Z 1) with 1 in *. change (inject_Z 0) with 0.
    destruct r, s; cbn [orb]; lra.
Qed.

Lemma located_ext (mrs : shr_record) (y y' : Q) :
  y == y' -> located mrs y -> located mrs y'.
Proof.
  intros E [M L]. split; [ exact M | ].
  destruct (shr_r mrs), (shr_s mrs); lra.
Qed.

Lemma two_to_pos (n : positive) : 0 < two_to n.
Proof.
  unfold two_to. change 0 with (inject_Z 0). rewrite <- Zlt_Qlt.
  apply Z.pow_pos_nonneg; lia.
Qed.

Lemma two_to_xO (n : positive) : two_to n~0 == two_to n * two_to n.
Proof.
  unfold two_to. rewrite <- inject_Z_mult.
  replace (Z.pos n~0) with (Z.pos n + Z.pos n)%Z by lia.
  rewrite Z.pow_add_r by lia. reflexivity.
Qed.

Lemma two_to_xI (n : positive) : two_to n~1 == 2 * (two_to n * two_to n).
Proof.
  unfold two_to. rewrite <- !inject_Z_mult.
  replace (Z.pos n~1) with (1 + (Z.pos n + Z.pos n))%Z by lia.
  rewrite !Z.pow_add_r by lia. reflexivity.
Qed.

Lemma two_to_1 : two_to 1 == 2.
Proof. reflexivity. Qed.

Lemma iter_shr_1_located (n : positive) :
  forall (mrs : shr_record) (y : Q),
    located mrs y -> located (SpecFloat.iter_pos shr_1 n mrs) (y / two_to n).
Proof.
  induction n as [n IH | n IH | ]; intros mrs y L; cbn [SpecFloat.iter_pos].
  - apply (located_ext _ (y * (1 # 2) / two_to n / two_to n)).
    + rewrite two_to_xI. pose proof (two_to_pos n). field. lra.
    + apply IH, IH, shr_1_located, L.
  - apply (located_ext _ (y / two_to n / two_to n)).
    + rewrite two_to_xO. pose proof (two_to_pos n). field. lra.
    + apply IH, IH, L.
  - apply (located_ext _ (y * (1 # 2))).
    + rewrite two_to_1. field.
    + apply shr_1_located, L.
Qed.

Lemma shr_located (mrs : shr_record) (e n : Z) (y : Q) :
  located mrs y ->
  exists k : Z,
    (0 <= k)%Z /\ snd (shr mrs e n) = (e + k)%Z
    /\ located (fst (shr mrs e n)) (y / inject_Z (2 ^ k)).
Proof.
  intros L. destruct n as [ | p | p ]; cbn [shr fst snd].
  - exists 0%Z. split; [ lia | split; [ lia | ] ].
    apply (located_ext _ y); [ | exact L ]. change (inject_Z (2 ^ 0)) with 1. field.
  - exists (Z.pos p). split; [ lia | split; [ reflexivity | ] ].
    apply (iter_shr_1_located p mrs y L).
  - exists 0%Z. split; [ lia | split; [ lia | ] ].
    apply (located_ext _ y); [ | exact L ]. change (inject_Z (2 ^ 0)) with 1. field.
Qed.

Lemma round_nearest_even_located (mrs : shr_record) (y : Q) :
  located mrs y ->
  let m := round_nearest_even (shr_m mrs) (loc_of_shr_record mrs) in
  (0 <= m)%Z /\ inject_Z m - (1 # 2) <= y /\ y <= inject_Z m + (1 # 2).
Proof.
  destruct mrs as [m r s]. unfold located. cbn [shr_m shr_r shr_s].
  intros [M L].
  destruct r, s; cbn [loc_of_shr_record round_nearest_even shr_m].
  - rewrite inject_Z_plus. change (inject_Z 1) with 1. split; [ lia | lra ].
  - destruct (Z.even m).
    + split; [ lia | lra ].
    + rewrite inject_Z_plus. change (inject_Z 1) with 1. split; [ lia | lra ].
  - split; [ lia | lra ].
  - split; [ lia | lra ].
Qed.

Lemma pow2_Q_ge_1 (k : Z) : (0 <= k)%Z -> 1 <= inject_Z (2 ^ k).
Proof.
  intros K. change 1 with (inject_Z 1). rewrite <- Zle_Qle.
  pose proof (Z.pow_pos_nonneg 2 k ltac:(lia) K). lia.
Qed.

Lemma pow2_Q_add (j k : Z) :
  (0 <= j)%Z -> (0 <= k)%Z ->
  inject_Z (2 ^ (j + k)) == inject_Z (2 ^ j) * inject_Z (2 ^ k).
Proof.
  intros J K. rewrite Z.pow_add_r by assumption. rewrite inject_Z_mult. reflexivity.
Qed.

(** What [binary_round_aux] returns, when finite, is within one and a half
    units of its last place of the number it was given. *)
Lemma binary_round_aux_error (s : bool) (mx ex : Z) (lx : location) (y : Q)
    (sr : bool) (m : positive) (e : Z) :
  located (shr_record_of_loc mx lx) y ->
  binary_round_aux prec emax s mx ex lx = S754_finite sr m e ->
  sr = s
  /\ exists k : Z,
       (0 <= k)%Z /\ e = (ex + k)%Z
       /\ Qabs (inject_Z (Z.pos m) * inject_Z (2 ^ k) - y)
          <= (3 # 2) * inject_Z (2 ^ k).
Proof.
  intros L. unfold binary_round_aux, shr_fexp.
  set (n1 := (fexp prec emax (Zdigits2 mx + ex) - ex)%Z).
  destruct (shr_located _ ex n1 y L) as [k1 [K1 [E1 L1]]].
  destruct (shr (shr_record_of_loc mx lx) ex n1) as [mrs1 e1].
  cbn [fst snd] in E1, L1. subst e1.
  destruct (round_nearest_even_located _ _ L1) as [M0 [R1 R2]].
  set (ms := round_nearest_even (shr_m mrs1) (loc_of_shr_record mrs1)) in *.
  assert (Ls : located (shr_record_of_loc ms loc_Exact) (inject_Z ms)).
  { split; [ exact M0 | ]. cbn. reflexivity. }
  set (n2 := (fexp prec emax (Zdigits2 ms + (ex + k1)) - (ex + k1))%Z).
  destruct (shr_located _ (ex + k1)%Z n2 _ Ls) as [k2 [K2 [E2 L2]]].
  destruct (shr (shr_record_of_loc ms loc_Exact) (ex + k1) n2) as [mrs2 e2].
  cbn [fst snd] in E2, L2. subst e2.
  destruct (located_bounds _ _ L2) as [B1 B2].
  destruct (shr_m mrs2) as [ | m2 | m2 ] eqn:M2; try discriminate.
  destruct (ex + k1 + k2 <=? emax - prec)%Z; [ | discriminate ].
  intros E. injection E as <- <- <-. split; [ reflexivity | ].
  exists (k1 + k2)%Z. split; [ lia | split; [ lia | ] ].
  rewrite pow2_Q_add by assumption.
  pose proof (pow2_Q_ge_1 k1 K1) as A1. pose proof (pow2_Q_ge_1 k2 K2) as A2.
  set (A := inject_Z (2 ^ k1)) in *. set (B := inject_Z (2 ^ k2)) in *.
  set (M := inject_Z (Z.pos m2)) in *. set (S := inject_Z ms) in *.
  assert (Y : y == y / A * A) by (field; lra).
  set (y1 := y / A) in *.
  assert (SB : S == S / B * B) by (field; lra).
  set (t := S / B) in *.
  assert (T1 : M * B <= S) by (rewrite SB; apply Qmult_le_compat_r; lra).
  assert (T2 : S < (M + 1) * B) by (rewrite SB at 1; apply Qmult_lt_r; lra).
  assert (G : - ((3 # 2) * B) <= M * B - y1 /\ M * B - y1 <= (3 # 2) * B).
  { split; lra. }
  apply Qabs_Qle_condition.
  assert (G1 : A * - ((3 # 2) * B) <= A * (M * B - y1)).
  { apply Qmult_le_l; lra. }
  assert (G2 : A * (M * B - y1) <= A * ((3 # 2) * B)).
  { apply Qmult_le_l; lra. }
  split; lra.
Qed.

Lemma digits2_pos_lower (p : positive) :
  (2 ^ (Z.pos (digits2_pos p) - 1) <= Z.pos p)%Z.
Proof.
  induction p as [ p IH | p IH | ]; cbn [digits2_pos].
  - rewrite Pos2Z.inj_succ. replace (Z.succ (Z.pos (digits2_pos p)) - 1)%Z
      with (Z.succ (Z.pos (digits2_pos p) - 1)) by lia.
    rewrite Z.pow_succ_r by lia. lia.
  - rewrite Pos2Z.inj_succ. replace (Z.succ (Z.pos (digits2_pos p)) - 1)%Z
      with (Z.succ (Z.pos (digits2_pos p) - 1)) by lia.
    rewrite Z.pow_succ_r by lia. lia.
  - cbn. lia.
Qed.

Lemma ratio_located (q r m2 : Z) (y : Q) :
  (0 <= q)%Z -> (0 <= r < m2)%Z ->
  y * inject_Z m2 == inject_Z (m2 * q + r) ->
  located (shr_record_of_loc q (new_location m2 r)) y.
Proof.
  intros Q0 R E.
  assert (M : 0 < inject_Z m2).
  { change 0 with (inject_Z 0). rewrite <- Zlt_Qlt. lia. }
  rewrite inject_Z_plus, inject_Z_mult in E.
  assert (D : (y - inject_Z q) * inject_Z m2 == inject_Z r) by lra.
  set (d := y - inject_Z q) in *.
  assert (Y : y == inject_Z q + d) by (unfold d; lra).
  assert (lt_half : (2 * r < m2)%Z -> d < 1 # 2).
  { intros L. apply (Qmult_lt_r _ _ (inject_Z m2) M). rewrite D.
    rewrite Zlt_Qlt, inject_Z_mult in L. change (inject_Z 2) with 2 in L. lra. }
  assert (gt_half : (m2 < 2 * r)%Z -> 1 # 2 < d).
  { intros L. apply (Qmult_lt_r _ _ (inject_Z m2) M). rewrite D.
    rewrite Zlt_Qlt, inject_Z_mult in L. change (inject_Z 2) with 2 in L. lra. }
  assert (eq_half : (2 * r = m2)%Z -> d == 1 # 2).
  { intros L. apply (Qmult_inj_r _ _ (inject_Z m2)); [ lra | ]. rewrite D.
    rewrite <- L, inject_Z_mult. change (inject_Z 2) with 2. lra. }
  assert (pos : (0 < r)%Z -> 0 < d).
  { intros L. apply (Qmult_lt_r _ _ (inject_Z m2) M). rewrite D.
    rewrite Zlt_Qlt in L. change (inject_Z 0) with 0 in L. lra. }
  assert (lt_1 : d < 1).
  { apply (Qmult_lt_r _ _ (inject_Z m2) M). rewrite D.
    destruct R as [_ R]. rewrite Zlt_Qlt in R. lra. }
  assert (zero : r = 0%Z -> d == 0).
  { intros ->. apply (Qmult_inj_r _ _ (inject_Z m2)); [ lra | ]. rewrite D.
    change (inject_Z 0) with 0. lra. }
  split.
  { destruct (new_location m2 r) as [ | [ | | ] ]; exact Q0. }
  unfold new_location, new_location_even, new_location_odd.
  destruct (Z.even m2) eqn:EV; destruct (Z.eqb_spec r 0) as [ R0 | R0 ].
  - cbn. rewrite Y, (zero R0). lra.
  - destruct (Z.compare_spec (2 * r) m2) as [ C | C | C ]; cbn.
    + rewrite Y, (eq_half C). lra.
    + specialize (lt_half C). specialize (pos ltac:(lia)). lra.
    + specialize (gt_half C). lra.
  - cbn. rewrite Y, (zero R0). lra.
  - assert (ODD : (2 * r <> m2)%Z).
    { intros <-. rewrite Z.even_mul in EV. discriminate. }
    destruct (Z.compare_spec (2 * r + 1) m2) as [ C | C | C ]; cbn.
    + specialize (lt_half ltac:(lia)). specialize (pos ltac:(lia)). lra.
    + specialize (lt_half ltac:(lia)). specialize (pos ltac:(lia)). lra.
    + specialize (gt_half ltac:(lia)). lra.
Qed.

(** The quotient and the location [SFdiv_core_binary] returns are those
    of the rational quotient, scaled by a power of two. *)
Lemma SFdiv_core_binary_located (m1 m2 : positive) (e1 e2 : Z) :
  exists k : Z,
    (0 <= k)%Z
    /\ (e1 - e2 = snd (fst (SFdiv_core_binary prec emax (Z.pos m1) e1 (Z.pos m2) e2)) + k)%Z
    /\ located
         (shr_record_of_loc
            (fst (fst (SFdiv_core_binary prec emax (Z.pos m1) e1 (Z.pos m2) e2)))
            (snd (SFdiv_core_binary prec emax (Z.pos m1) e1 (Z.pos m2) e2)))
         (inject_Z (Z.pos m1) * inject_Z (2 ^ k) / inject_Z (Z.pos m2)).
Proof.
  unfold SFdiv_core_binary.
  set (e' := Z.min _ (e1 - e2)).
  set (s := (e1 - e2 - e')%Z).
  assert (S0 : (0 <= s)%Z) by (unfold s, e'; lia).
  set (m' := match s with Z.pos _ => Z.shiftl (Z.pos m1) s | Z0 => Z.pos m1 | Z.neg _ => 0%Z end).
  assert (M' : m' = (Z.pos m1 * 2 ^ s)%Z).
  { unfold m'. destruct s as [ | p | p ].
    - cbn. lia.
    - rewrite Z.shiftl_mul_pow2 by lia. reflexivity.
    - lia. }
  pose proof (Z_div_mod m' (Z.pos m2) ltac:(lia)) as DM.
  destruct (Z.div_eucl m' (Z.pos m2)) as [q r]. destruct DM as [DM R].
  cbn [fst snd]. exists s. split; [ exact S0 | split; [ unfold s; lia | ] ].
  assert (P : (0 <= m')%Z).
  { rewrite M'. pose proof (Z.pow_pos_nonneg 2 s ltac:(lia) S0). lia. }
  apply ratio_located.
  - destruct (Z_lt_le_dec q 0) as [ N | ]; [ | assumption ]. nia.
  - lia.
  - rewrite <- DM, M', inject_Z_mult. field.
    change 0 with (inject_Z 0). rewrite inject_Z_injective. discriminate.
Qed.

Ltac qreplace a b :=
  let X := fresh in assert (X : a == b) by ring; rewrite X; clear X.

Lemma pow2_inject (k : Z) : (0 <= k)%Z -> inject_Z (2 ^ k) == 2 ^ k.
Proof. intros K. rewrite Zpower_Qpower by assumption. reflexivity. Qed.

Lemma SF2Q_pow (s : bool) (m : positive) (e : Z) :
  SF2Q s m e == sign_of s * inject_Z (Z.pos m) * 2 ^ e.
Proof.
  assert (N : inject_Z (if s then Z.neg m else Z.pos m)
              == sign_of s * inject_Z (Z.pos m)).
  { destruct s; unfold sign_of.
    - change (Z.neg m) with (- Z.pos m)%Z. rewrite inject_Z_opp. ring.
    - ring. }
  unfold SF2Q. destruct e as [ | p | p ].
  - rewrite N. change (2 ^ 0) with 1. ring.
  - rewrite inject_Z_mult, N, pow2_inject by lia. reflexivity.
  - rewrite Qmake_Qdiv, N. rewrite Pos2Z.inj_pow.
    rewrite pow2_inject by lia. change (Z.neg p) with (- Z.pos p)%Z.
    rewrite Qpower_opp. reflexivity.
Qed.

Lemma pow2_Q_positive (e : Z) : 0 < (2 : Q) ^ e.
Proof. apply Qpower_0_lt. reflexivity. Qed.

Lemma Qabs_sign_of (s : bool) (x : Q) : Qabs (sign_of s * x) == Qabs x.
Proof.
  destruct s; unfold sign_of.
  - qreplace (- (1) * x) (- x). apply Qabs_opp.
  - qreplace (1 * x) x. reflexivity.
Qed.

(** From the bound in units of the last place to a relative bound, for a
    significand of 53 bits. *)
Lemma rounded_value_error (s : bool) (m : positive) (e ez k : Z) (y : Q) :
  (0 <= k)%Z -> e = (ez + k)%Z -> Z.pos (digits2_pos m) = prec ->
  Qabs (inject_Z (Z.pos m) * inject_Z (2 ^ k) - y) <= (3 # 2) * inject_Z (2 ^ k) ->
  Qabs (SF2Q s m e - sign_of s * y * 2 ^ ez) <= eta * Qabs (SF2Q s m e).
Proof.
  intros K -> D B.
  pose proof (digits2_pos_lower m) as L. rewrite D in L.
  change (2 ^ (prec - 1))%Z with (2 ^ 52)%Z in L.
  rewrite Zle_Qle in L.
  pose proof (pow2_Q_positive ez) as P.
  pose proof (pow2_Q_ge_1 k K) as K1.
  rewrite !SF2Q_pow.
  rewrite Qpower_plus by discriminate.
  rewrite <- (pow2_inject k K).
  set (M := inject_Z (Z.pos m)) in *. set (A := inject_Z (2 ^ k)) in *.
  set (E := (2 : Q) ^ ez) in *.
  qreplace (sign_of s * M * (E * A) - sign_of s * y * E) (sign_of s * ((M * A - y) * E)).
  qreplace (sign_of s * M * (E * A)) (sign_of s * (M * (E * A))).
  rewrite !Qabs_sign_of.
  rewrite Qabs_Qmult, (Qabs_pos E) by lra.
  assert (MA : 0 <= M * (E * A)).
  { apply Qmult_le_0_compat; [ | apply Qmult_le_0_compat; lra ].
    unfold M. change 0 with (inject_Z 0). rewrite <- Zle_Qle. lia. }
  rewrite (Qabs_pos _ MA).
  apply Qle_trans with ((3 # 2) * A * E).
  - apply Qmult_le_compat_r; [ exact B | lra ].
  - qreplace (eta * (M * (E * A))) (eta * M * (A * E)).
    qreplace ((3 # 2) * A * E) ((3 # 2) * (A * E)).
    apply Qmult_le_compat_r.
    + assert (X : eta * inject_Z (2 ^ 52) == 3 # 2) by reflexivity.
      rewrite <- X. apply Qmult_le_l; [ reflexivity | exact L ].
    + apply Qmult_le_0_compat; lra.
Qed.

Lemma sign_of_xorb (a b : bool) : sign_of (xorb a b) == sign_of a * sign_of b.
Proof. destruct a, b; reflexivity. Qed.

Lemma inject_pos_nonzero (p : positive) : ~ inject_Z (Z.pos p) == 0.
Proof. change 0 with (inject_Z 0). rewrite inject_Z_injective. discriminate. Qed.

Lemma pow2_Q_nonzero (e : Z) : ~ (2 : Q) ^ e == 0.
Proof. pose proof (pow2_Q_positive e). lra. Qed.

Lemma sign_of_nonzero (s : bool) : ~ sign_of s == 0.
Proof. destruct s; discriminate. Qed.

(** One multiplication: when the product is a normal double, it is within
    [eta] of the exact product, relative to itself. *)
Lemma b64_mul_error (x y : float) :
  isnormal (x * y)%float = true ->
  Qabs (float_value (x * y)%float - float_value x * float_value y)
  <= eta * Qabs (float_value (x * y)%float).
Proof.
  unfold isnormal, float_value. rewrite mul_spec.
  destruct (Prim2SF x) as [ sx | sx | | sx mx ex ];
    destruct (Prim2SF y) as [ sy | sy | | sy my ey ];
    cbn [SF64mul SFmul]; try discriminate.
  destruct (binary_round_aux prec emax (xorb sx sy) (Z.pos (mx * my)) (ex + ey)
              loc_Exact) as [ | | | s m e ] eqn:E; try discriminate.
  intros D. apply Z.eqb_eq in D.
  assert (L : located (shr_record_of_loc (Z.pos (mx * my)) loc_Exact)
                (inject_Z (Z.pos (mx * my)))).
  { split; [ cbn; lia | cbn; reflexivity ]. }
  destruct (binary_round_aux_error _ _ _ _ _ _ _ _ L E) as [-> [k [K [Ee B]]]].
  pose proof (rounded_value_error (xorb sx sy) m e (ex + ey) k _ K Ee D B) as R.
  assert (X : SF2Q sx mx ex * SF2Q sy my ey
              == sign_of (xorb sx sy) * inject_Z (Z.pos (mx * my)) * 2 ^ (ex + ey)).
  { rewrite !SF2Q_pow, sign_of_xorb, Qpower_plus by discriminate.
    rewrite Pos2Z.inj_mul, inject_Z_mult. ring. }
  rewrite X. exact R.
Qed.

(** One division, likewise. *)
Lemma b64_div_error (x y : float) :
  isnormal (x / y)%float = true ->
  Qabs (float_value (x / y)%float - float_value x / float_value y)
  <= eta * Qabs (float_value (x / y)%float).
Proof.
  unfold isnormal, float_value. rewrite div_spec.
  destruct (Prim2SF x) as [ sx | sx | | sx mx ex ];
    destruct (Prim2SF y) as [ sy | sy | | sy my ey ];
    cbn [SF64div SFdiv]; try discriminate.
  destruct (SFdiv_core_binary_located mx my ex ey) as [k0 [K0 [E0 L]]].
  destruct (SFdiv_core_binary prec emax (Z.pos mx) ex (Z.pos my) ey)
    as [[mz ez] lz].
  cbn [fst snd] in E0, L.
  destruct (binary_round_aux prec emax (xorb sx sy) mz ez lz)
    as [ | | | s m e ] eqn:E; try discriminate.
  intros D. apply Z.eqb_eq in D.
  destruct (binary_round_aux_error _ _ _ _ _ _ _ _ L E) as [-> [k [K [Ee B]]]].
  pose proof (rounded_value_error (xorb sx sy) m e ez k _ K Ee D B) as R.
  assert (X : SF2Q sx mx ex / SF2Q sy my ey
              == sign_of (xorb sx sy)
                 * (inject_Z (Z.pos mx) * inject_Z (2 ^ k0) / inject_Z (Z.pos my))
                 * 2 ^ ez).
  { rewrite !SF2Q_pow, sign_of_xorb, (pow2_inject k0 K0).
    replace ex with (ey + (ez + k0))%Z by lia.
    rewrite !Qpower_plus by discriminate.
    pose proof (inject_pos_nonzero my). pose proof (pow2_Q_nonzero ey).
    destruct sx, sy; unfold sign_of; field; auto. }
  rewrite X. exact R.
Qed.

(** A normal quotient has a divisor that is not zero. *)
Lemma b64_div_normal_divisor (x y : float) :
  isnormal (x / y)%float = true -> (y =? 0)%float = false.
Proof.
  unfold isnormal. rewrite div_spec, FloatAxioms.eqb_spec.
  destruct (Prim2SF x) as [ sx | sx | | sx mx ex ];
    destruct (Prim2SF y) as [ sy | sy | | sy my ey ];
    cbn [SF64div SFdiv]; try discriminate; intros _;
    destruct sy; reflexivity.
Qed.

Lemma digits2_pos_iter (d p : positive) :
  digits2_pos (Pos.iter xO p d) = (digits2_pos p + d)%positive.
Proof.
  induction d as [ | d IH ] using Pos.peano_ind.
  - cbn. rewrite Pos.add_1_r. reflexivity.
  - rewrite Pos.iter_succ. cbn [digits2_pos]. rewrite IH, Pos.add_succ_r.
    reflexivity.
Qed.

Lemma iter_xO_value (d p : positive) :
  Z.pos (Pos.iter xO p d) = (Z.pos p * 2 ^ Z.pos d)%Z.
Proof.
  induction d as [ | d IH ] using Pos.peano_ind.
  - cbn. lia.
  - rewrite Pos.iter_succ, Pos2Z.inj_xO, IH, Pos2Z.inj_succ, Z.pow_succ_r by lia.
    lia.
Qed.

(** A significand of 53 bits with an exponent in range is not rounded. *)
Lemma binary_round_aux_exact (s : bool) (m : positive) (e : Z) :
  Z.pos (digits2_pos m) = prec ->
  (SpecFloat.emin prec emax <= e <= emax - prec)%Z ->
  binary_round_aux prec emax s (Z.pos m) e loc_Exact = S754_finite s m e.
Proof.
  intros D [E1 E2]. unfold binary_round_aux, shr_fexp.
  assert (N : (fexp prec emax (Zdigits2 (Z.pos m) + e) - e = 0)%Z).
  { unfold fexp. cbn [Zdigits2]. rewrite D. lia. }
  rewrite N. cbn [shr shr_record_of_loc shr_m loc_of_shr_record
                  round_nearest_even].
  rewrite N. cbn [shr shr_record_of_loc shr_m].
  apply Z.leb_le in E2. rewrite E2. reflexivity.
Qed.

(** An integer from 1 to [2^53 - 1] converts to the double of the same
    value. *)
Lemma Z2SF_exact (n : Z) :
  (1 <= n < 2 ^ 53)%Z ->
  exists (m : positive) (e : Z),
    Z2SF n = S754_finite false m e
    /\ Prim2SF (SF2Prim (Z2SF n)) = S754_finite false m e
    /\ SF2Q false m e == inject_Z n.
Proof.
  intros [N1 N2]. destruct n as [ | p | p ]; try lia.
  pose proof (digits2_pos_lower p) as L.
  assert (D : (Z.pos (digits2_pos p) <= 53)%Z).
  { destruct (Z_lt_le_dec 53 (Z.pos (digits2_pos p))) as [ G | ]; [ | lia ].
    pose proof (Z.pow_le_mono_r 2 53 (Z.pos (digits2_pos p) - 1)
                  ltac:(lia) ltac:(lia)). lia. }
  unfold Z2SF, binary_normalize, binary_round, shl_align.
  assert (X : (fexp prec emax (Z.pos (digits2_pos p) + 0) - 0
               = Z.pos (digits2_pos p) - 53)%Z).
  { unfold fexp, SpecFloat.emin, prec, emax. lia. }
  assert (X' : fexp prec emax (Z.pos (digits2_pos p) + 0)
               = (Z.pos (digits2_pos p) - 53)%Z) by lia.
  rewrite X.
  assert (V : forall m e, Z.pos (digits2_pos m) = prec ->
                (SpecFloat.emin prec emax <= e <= emax - prec)%Z ->
                valid_binary (S754_finite false m e) = true).
  { intros m e Dm [E1 E2].
    unfold valid_binary, SpecFloat.valid_binary, bounded, canonical_mantissa.
    apply andb_true_iff. split; [ apply Z.eqb_eq | apply Z.leb_le; exact E2 ].
    unfold fexp. rewrite Dm. lia. }
  destruct (Z.pos (digits2_pos p) - 53)%Z as [ | d | d ] eqn:S; try lia.
  - assert (Dp : Z.pos (digits2_pos p) = prec) by (unfold prec; lia).
    exists p, 0%Z.
    rewrite (binary_round_aux_exact false p 0 Dp)
      by (unfold SpecFloat.emin, prec, emax; lia).
    split; [ reflexivity | split ].
    + apply Prim2SF_SF2Prim, V; [ exact Dp | unfold SpecFloat.emin, prec, emax; lia ].
    + reflexivity.
  - assert (Dm : Z.pos (digits2_pos (Pos.iter xO p d)) = prec).
    { rewrite digits2_pos_iter, Pos2Z.inj_add. unfold prec. lia. }
    rewrite X'.
    exists (Pos.iter xO p d), (Z.neg d).
    rewrite (binary_round_aux_exact false _ _ Dm)
      by (unfold SpecFloat.emin, prec, emax; lia).
    split; [ reflexivity | split ].
    + apply Prim2SF_SF2Prim, V; [ exact Dm | unfold SpecFloat.emin, prec, emax; lia ].
    + rewrite SF2Q_pow, iter_xO_value, inject_Z_mult, pow2_inject by lia.
      change (Z.neg d) with (- Z.pos d)%Z. rewrite Qpower_opp.
      unfold sign_of. field. apply pow2_Q_nonzero.
Qed.

Lemma Qmult_le_compat_l (x y z : Q) : 0 <= z -> x <= y -> z * x <= z * y.
Proof.
  intros Z0 L. rewrite (Qmult_comm z x), (Qmult_comm z y).
  apply Qmult_le_compat_r; assumption.
Qed.

Lemma near_mul (u w x y : Q) :
  0 <= u -> u <= 1 -> 0 <= w -> w <= 1 ->
  near u x -> near w y -> near (u + w + u * w) (x * y).
Proof.
  unfold near. intros U0 U1 W0 W1 [X1 X2] [Y1 Y2]. split.
  - assert (A : (1 - u) * (1 - w) <= x * (1 - w)).
    { apply Qmult_le_compat_r; lra. }
    assert (B : x * (1 - w) <= x * y).
    { apply Qmult_le_compat_l; lra. }
    assert (C : 0 <= u * w) by (apply Qmult_le_0_compat; lra).
    lra.
  - assert (A : x * y <= (1 + u) * y).
    { apply Qmult_le_compat_r; lra. }
    assert (B : (1 + u) * y <= (1 + u) * (1 + w)).
    { apply Qmult_le_compat_l; lra. }
    lra.
Qed.

Lemma isnormal_value_nonzero (x : float) :
  isnormal x = true -> ~ float_value x == 0.
Proof.
  unfold isnormal, float_value.
  destruct (Prim2SF x) as [ | | | s m e ]; try discriminate. intros _.
  rewrite SF2Q_pow. intros E.
  pose proof (pow2_Q_nonzero e) as P. pose proof (inject_pos_nonzero m) as M.
  pose proof (sign_of_nonzero s) as S.
  apply Qmult_integral in E. destruct E as [E | E]; [ | tauto ].
  apply Qmult_integral in E. tauto.
Qed.

(** The relative bound as a factor: the exact result is the computed one
    times a number within [eta] of one. *)
Lemma error_factor (computed real : Q) :
  ~ computed == 0 ->
  Qabs (computed - real) <= eta * Qabs computed ->
  exists P : Q, near eta P /\ real == computed * P.
Proof.
  intros NZ B. exists (real / computed). split.
  - assert (A : 0 < Qabs computed).
    { destruct (Qlt_le_dec 0 computed) as [ G | L ].
      - rewrite Qabs_pos; lra.
      - rewrite Qabs_neg by lra. apply Qle_lteq in L.
        destruct L as [ L | L ]; [ lra | tauto ]. }
    assert (E : Qabs (1 - real / computed) <= eta).
    { assert (X : 1 - real / computed == (computed - real) / computed)
        by (field; exact NZ).
      rewrite X. unfold Qdiv. rewrite Qabs_Qmult, Qabs_Qinv.
      apply Qle_shift_div_r; assumption. }
    apply Qabs_Qle_condition in E. unfold near. lra.
  - field. exact NZ.
Qed.

(** Two quantities that agree up to factors near one are close. *)
Lemma ratio_close (A B P R u tol : Q) :
  A * P == B * R -> near u P -> near u R ->
  0 <= u -> u < 1 -> 2 * u <= tol * (1 - u) ->
  Qabs (A - B) <= tol * Qabs B.
Proof.
  unfold near. intros E [P1 P2] [R1 R2] U0 U1 T.
  assert (PP : 0 < P) by lra.
  assert (X : (A - B) * P == B * (R - P)) by lra.
  assert (Y : Qabs (A - B) * P == Qabs B * Qabs (R - P)).
  { rewrite <- Qabs_Qmult, <- X, Qabs_Qmult, (Qabs_pos P) by lra. reflexivity. }
  assert (D : Qabs (R - P) <= 2 * u) by (apply Qabs_Qle_condition; lra).
  pose proof (Qabs_nonneg B) as NB.
  assert (T0 : 0 <= tol).
  { destruct (Qlt_le_dec tol 0) as [ N | ]; [ | assumption ]. exfalso.
    assert (tol * (1 - u) < 0 * (1 - u)) by (apply Qmult_lt_r; lra). lra. }
  apply (Qmult_le_r _ _ P PP). rewrite Y.
  apply Qle_trans with (Qabs B * (2 * u)).
  { apply Qmult_le_compat_l; assumption. }
  apply Qle_trans with (Qabs B * (tol * (1 - u))).
  { apply Qmult_le_compat_l; assumption. }
  assert (Z : tol * Qabs B * P == Qabs B * (tol * P)) by ring.
  rewrite Z. apply Qmult_le_compat_l; [ assumption | ].
  apply Qmult_le_compat_l; lra.
Qed.


(** ** The forward calculator *)



(** *** Proportionality in binary64 *)

Lemma SF2Q_nonzero (s : bool) (m : positive) (e : Z) : ~ SF2Q s m e == 0.
Proof.
  rewrite SF2Q_pow. intros E.
  pose proof (pow2_Q_nonzero e) as P. pose proof (inject_pos_nonzero m) as M.
  pose proof (sign_of_nonzero s) as S.
  apply Qmult_integral in E. destruct E as [E | E]; [ | tauto ].
  apply Qmult_integral in E. tauto.
Qed.

Lemma b64_div_normal_divisor_value (x y : float) :
  isnormal (x / y)%float = true -> ~ float_value y == 0.
Proof.
  unfold isnormal, float_value. rewrite div_spec.
  destruct (Prim2SF x) as [ sx | sx | | sx mx ex ];
    destruct (Prim2SF y) as [ sy | sy | | sy my ey ];
    cbn [SF64div SFdiv]; try discriminate; intros _; apply SF2Q_nonzero.
Qed.

Lemma float_value_1 : float_value 1 == 1.
Proof. vm_compute. reflexivity. Qed.

Lemma float_value_2 : float_value 2 == 2.
Proof. vm_compute. reflexivity. Qed.

Lemma of_int_1 : of_int 1 = Ok 1%float.
Proof. vm_compute. reflexivity. Qed.

Lemma of_int_exact (n : Z) (cores : float) :
  (1 <= n < 2 ^ 53)%Z -> of_int n = Ok cores ->
  float_value cores == inject_Z n.
Proof.
  intros N. destruct (Z2SF_exact n N) as [m [e [E1 [E2 E3]]]].
  cbn [of_int binary64]. rewrite E1. intros C.
  assert (X : cores = SF2Prim (S754_finite false m e))
    by (injection C as <-; reflexivity).
  rewrite E1 in E2. rewrite X. unfold float_value. rewrite E2. exact E3.
Qed.

Ltac qcompute := apply Qle_bool_imp_le; vm_compute; reflexivity.

Lemma product_of_four (c rt l two n a b q d Pa Pb Pq Pd : Q) :
  ~ n == 0 ->
  rt * l == a * Pa -> a * two == b * Pb -> b / n == q * Pq -> c * q == d * Pd ->
  c * (rt * l * two / n) == d * (Pa * Pb * (Pq * Pd)).
Proof.
  intros N Ea Eb Eq Ed. rewrite Ea.
  assert (X1 : c * (a * Pa * two / n) == c * (a * two * Pa / n))
    by (field; exact N).
  rewrite X1, Eb.
  assert (X2 : c * (b * Pb * Pa / n) == c * (b / n * (Pb * Pa)))
    by (field; exact N).
  rewrite X2, Eq.
  assert (X3 : c * (q * Pq * (Pb * Pa)) == c * q * (Pq * Pb * Pa)) by ring.
  rewrite X3, Ed. ring.
Qed.

(** The drop the code computes is the exact drop of the computed
    resistance per meter, up to a factor within [eta4] of one. *)
Lemma drop_value (r_temp length_m cores current_a : float) :
  drop_is_normal r_temp length_m cores current_a = true ->
  (cores =? 0)%float = false
  /\ ~ float_value cores == 0
  /\ exists P : Q,
       near eta4 P
       /\ float_value current_a
          * (float_value r_temp * float_value length_m * 2 / float_value cores)
          == float_value (current_a * (r_temp * length_m * 2 / cores))%float * P.
Proof.
  unfold drop_is_normal. rewrite !andb_true_iff. intros [[[Na Nb] Nq] Nd].
  split; [ exact (b64_div_normal_divisor _ _ Nq) | ].
  pose proof (b64_div_normal_divisor_value _ _ Nq) as NZ.
  split; [ exact NZ | ].
  destruct (error_factor _ _ (isnormal_value_nonzero _ Na) (b64_mul_error _ _ Na))
    as [Pa [Ha Ea]].
  destruct (error_factor _ _ (isnormal_value_nonzero _ Nb) (b64_mul_error _ _ Nb))
    as [Pb [Hb Eb]].
  destruct (error_factor _ _ (isnormal_value_nonzero _ Nq) (b64_div_error _ _ Nq))
    as [Pq [Hq Eq]].
  destruct (error_factor _ _ (isnormal_value_nonzero _ Nd) (b64_mul_error _ _ Nd))
    as [Pd [Hd Ed]].
  exists (Pa * Pb * (Pq * Pd)). split.
  - assert (E0 : 0 <= eta) by qcompute. assert (E1 : eta <= 1) by qcompute.
    assert (F0 : 0 <= eta2) by qcompute. assert (F1 : eta2 <= 1) by qcompute.
    apply (near_mul eta2 eta2); try assumption;
      apply (near_mul eta eta); assumption.
  - rewrite float_value_2 in Eb.
    exact (product_of_four _ _ _ _ _ _ _ _ _ _ _ _ _ NZ Ea Eb Eq Ed).
Qed.

Lemma b64_drop_returns (length_m current_a : float)
    (cable_type conductor_spec : string) (num_cores : Z)
    (temp_c r20 cores : float) :
  resistance_per_meter_at_20c cable_type conductor_spec = Ok r20 ->
  of_int num_cores = Ok cores ->
  (cores =? 0)%float = false ->
  calculate_voltage_drop length_m current_a cable_type conductor_spec
    num_cores temp_c
  = Ok (current_a
        * (resistance_per_meter_at_temp r20 temp_c * length_m * 2 / cores))%float.
Proof.
  intros E C N.
  rewrite (drop_returns _ _ _ _ _ _ r20 cores E C).
  - cbn [fmul fdiv binary64]. rewrite b64_lit_2. reflexivity.
  - cbn [feqb binary64]. rewrite b64_lit_0. exact N.
Qed.

Lemma close_div (a b n tol : Q) :
  0 < n -> Qabs (a * n - b) <= tol * Qabs b ->
  Qabs (a - b / n) <= tol * Qabs (b / n).
Proof.
  intros N H.
  assert (X : Qabs (a - b / n) * n == Qabs (a * n - b)).
  { assert (X : Qabs (a * n - b) == Qabs ((a - b / n) * n))
      by (apply Qabs_wd; field; lra).
    rewrite X, Qabs_Qmult, (Qabs_pos n) by lra. reflexivity. }
  assert (Y : Qabs (b / n) * n == Qabs b).
  { assert (Y : Qabs b == Qabs (b / n * n)) by (apply Qabs_wd; field; lra).
    rewrite Y, Qabs_Qmult, (Qabs_pos n) by lra. reflexivity. }
  apply (Qmult_le_r _ _ n N). rewrite X.
  assert (Z : tol * Qabs (b / n) * n == tol * (Qabs (b / n) * n)) by ring.
  rewrite Z, Y. exact H.
Qed.

Lemma tolerance_covers_eta4 :
  0 <= eta4 /\ eta4 < 1 /\ 2 * eta4 <= tolerance * (1 - eta4).
Proof.
  split; [ qcompute | split; [ | qcompute ] ].
  apply Qlt_alt. vm_compute. reflexivity.
Qed.

(** Two runs whose exact drops are in the ratio [x2 : x1] compute drops in
    that ratio, within [tolerance]. *)
Lemma drops_in_ratio (d1 d2 x1 x2 K P1 P2 : Q) :
  near eta4 P1 -> near eta4 P2 ->
  x1 * K == d1 * P1 -> x2 * K == d2 * P2 ->
  Qabs (d2 * x1 - d1 * x2) <= tolerance * Qabs (d1 * x2).
Proof.
  intros N1 N2 E1 E2.
  destruct tolerance_covers_eta4 as [U0 [U1 T]].
  apply (ratio_close (d2 * x1) (d1 * x2) P2 P1 eta4 tolerance);
    try assumption.
  assert (X : d2 * x1 * P2 == d2 * P2 * x1) by ring.
  assert (Y : d1 * x2 * P1 == d1 * P1 * x2) by ring.
  rewrite X, Y, <- E1, <- E2. ring.
Qed.

(** C8 as worded does not hold of the code. With 1e308 m of 18 AWG at
    100 A and 20 degrees, the last product overflows with one core and the
    drop is [inf], and so is [inf] divided by 1000; with 1000 cores the drop
    is finite (about 4.18e305 V). No tolerance relates the two. *)
Lemma voltage_drop_overflow_not_proportional :
  exists d1 dn : float,
    calculate_voltage_drop 1e308%float 100%float "alarm" "18 AWG" 1 20%float
    = Ok d1
    /\ calculate_voltage_drop 1e308%float 100%float "alarm" "18 AWG" 1000
         20%float = Ok dn
    /\ d1 = infinity
    /\ (d1 / 1000)%float = infinity
    /\ isfinite dn = true
    /\ (dn <? 4.19e305)%float = true.
Proof.
  do 2 eexists. repeat split; vm_compute; reflexivity.
Qed.

(** C8, as the code has it. Whenever the products and the quotient of lines
    51 and 54 are normal doubles in both runs (no overflow, no underflow),
    the drop with [num_cores = N], [1 <= N < 2^53], is the drop with one
    core divided by [N], and the drops of two runs that differ in
    [current_a] only, or in [length_m] only, are in the ratio of the two
    currents, or lengths: each within a relative [tolerance] of [2^-48].
    With two cores the 50 m, 0.5 A, 18 AWG run drops 0.5225 V, exactly half
    of the one-core drop. *)
Theorem voltage_drop_proportional_within_tolerance :
  (forall (length_m current_a : float) (cable_type conductor_spec : string)
          (num_cores : Z) (temp_c r20 cores : float),
      resistance_per_meter_at_20c cable_type conductor_spec = Ok r20 ->
      (1 <= num_cores < 2 ^ 53)%Z ->
      of_int num_cores = Ok cores ->
      drop_is_normal (resistance_per_meter_at_temp r20 temp_c) length_m 1
        current_a = true ->
      drop_is_normal (resistance_per_meter_at_temp r20 temp_c) length_m cores
        current_a = true ->
      exists d1 dn : float,
        calculate_voltage_drop length_m current_a cable_type conductor_spec
          1 temp_c = Ok d1
        /\ calculate_voltage_drop length_m current_a cable_type conductor_spec
             num_cores temp_c = Ok dn
        /\ Qabs (float_value dn - float_value d1 / inject_Z num_cores)
           <= tolerance * Qabs (float_value d1 / inject_Z num_cores))
  /\ (forall (length_m current_1 current_2 : float)
             (cable_type conductor_spec : string)
             (num_cores : Z) (temp_c r20 cores : float),
      resistance_per_meter_at_20c cable_type conductor_spec = Ok r20 ->
      of_int num_cores = Ok cores ->
      drop_is_normal (resistance_per_meter_at_temp r20 temp_c) length_m cores
        current_1 = true ->
      drop_is_normal (resistance_per_meter_at_temp r20 temp_c) length_m cores
        current_2 = true ->
      exists d1 d2 : float,
        calculate_voltage_drop length_m current_1 cable_type conductor_spec
          num_cores temp_c = Ok d1
        /\ calculate_voltage_drop length_m current_2 cable_type conductor_spec
             num_cores temp_c = Ok d2
        /\ Qabs (float_value d2 * float_value current_1
                 - float_value d1 * float_value current_2)
           <= tolerance * Qabs (float_value d1 * float_value current_2))
  /\ (forall (length_1 length_2 current_a : float)
             (cable_type conductor_spec : string)
             (num_cores : Z) (temp_c r20 cores : float),
      resistance_per_meter_at_20c cable_type conductor_spec = Ok r20 ->
      of_int num_cores = Ok cores ->
      drop_is_normal (resistance_per_meter_at_temp r20 temp_c) length_1 cores
        current_a = true ->
      drop_is_normal (resistance_per_meter_at_temp r20 temp_c) length_2 cores
        current_a = true ->
      exists d1 d2 : float,
        calculate_voltage_drop length_1 current_a cable_type conductor_spec
          num_cores temp_c = Ok d1
        /\ calculate_voltage_drop length_2 current_a cable_type conductor_spec
             num_cores temp_c = Ok d2
        /\ Qabs (float_value d2 * float_value length_1
                 - float_value d1 * float_value length_2)
           <= tolerance * Qabs (float_value d1 * float_value length_2))
  /\ (exists v1 v2 : float,
        calculate_voltage_drop 50%float 0.5%float "alarm" "18 AWG" 1 20%float
        = Ok v1
        /\ calculate_voltage_drop 50%float 0.5%float "alarm" "18 AWG" 2 20%float
           = Ok v2
        /\ v2 = 0.5225%float /\ v2 = (v1 / 2)%float).
Proof.
  split; [ | split; [ | split ] ].
  - intros length_m current_a cable_type conductor_spec num_cores temp_c r20
      cores E NB C H1 HN.
    destruct (drop_value _ _ _ _ H1) as [Z1 [_ [P1 [N1 E1]]]].
    destruct (drop_value _ _ _ _ HN) as [ZN [VN [PN [NN EN]]]].
    pose proof (of_int_exact _ _ NB C) as X.
    assert (NP : 0 < inject_Z num_cores).
    { change 0 with (inject_Z 0). rewrite <- Zlt_Qlt. lia. }
    do 2 eexists. split; [ | split ].
    + exact (b64_drop_returns _ _ _ _ _ _ r20 1%float E of_int_1 Z1).
    + exact (b64_drop_returns _ _ _ _ _ _ r20 cores E C ZN).
    + apply close_div; [ exact NP | ].
      destruct tolerance_covers_eta4 as [U0 [U1 T]].
      apply (ratio_close _ _ PN P1 eta4 tolerance); try assumption.
      rewrite <- E1.
      match goal with
      | |- ?d * ?n * PN == _ =>
          assert (Y : d * n * PN == d * PN * n) by ring; rewrite Y
      end.
      rewrite <- EN, float_value_1, X. field. lra.
  - intros length_m current_1 current_2 cable_type conductor_spec num_cores
      temp_c r20 cores E C H1 H2.
    destruct (drop_value _ _ _ _ H1) as [Z1 [V1 [P1 [N1 E1]]]].
    destruct (drop_value _ _ _ _ H2) as [_ [_ [P2 [N2 E2]]]].
    do 2 eexists. split; [ | split ].
    + exact (b64_drop_returns _ _ _ _ _ _ r20 cores E C Z1).
    + exact (b64_drop_returns _ _ _ _ _ _ r20 cores E C Z1).
    + exact (drops_in_ratio _ _ _ _ _ _ _ N1 N2 E1 E2).
  - intros length_1 length_2 current_a cable_type conductor_spec num_cores
      temp_c r20 cores E C H1 H2.
    destruct (drop_value _ _ _ _ H1) as [Z1 [V1 [P1 [N1 E1]]]].
    destruct (drop_value _ _ _ _ H2) as [_ [_ [P2 [N2 E2]]]].
    do 2 eexists. split; [ | split ].
    + exact (b64_drop_returns _ _ _ _ _ _ r20 cores E C Z1).
    + exact (b64_drop_returns _ _ _ _ _ _ r20 cores E C Z1).
    + set (rt := float_value (resistance_per_meter_at_temp r20 temp_c)) in *.
      set (c := float_value current_a) in *. set (n := float_value cores) in *.
      apply (drops_in_ratio _ _ _ _ (c * rt * 2 / n) _ _ N1 N2).
      * rewrite <- E1. field. exact V1.
      * rewrite <- E2. field. exact V1.
  - do 2 eexists. repeat split; vm_compute; reflexivity.
Qed.

Lemma voltage_drop_proportional_within_tolerance_witness :
  exists d1 dn : float,
    calculate_voltage_drop 50%float 0.5%float "alarm" "22 AWG" 1 35%float = Ok d1
    /\ calculate_voltage_drop 50%float 0.5%float "alarm" "22 AWG" 3 35%float
       = Ok dn
    /\ Qabs (float_value dn - float_value d1 / inject_Z 3)
       <= tolerance * Qabs (float_value d1 / inject_Z 3).
Proof.
  apply (proj1 voltage_drop_proportional_within_tolerance
           50%float 0.5%float "alarm"%string "22 AWG"%string 3%Z 35%float
           0.0333%float 3%float).
  - vm_compute. reflexivity.
  - lia.
  - vm_compute. reflexivity.
  - vm_compute. reflexivity.
  - vm_compute. reflexivity.
Defined.

(** The drop the code returns, in binary64, against the formula of
    lines 51 and 54 evaluated without rounding at the same doubles: when
    the three products and the quotient are normal doubles, the function
    returns a normal double within a relative [2^-49] of
    [current_a * (resistance_per_meter_at_temp * length_m * 2 / num_cores)]. *)
Theorem voltage_drop_accuracy (length_m current_a : float)
    (cable_type conductor_spec : string) (num_cores : Z)
    (temp_c r20 cores : float) :
  resistance_per_meter_at_20c cable_type conductor_spec = Ok r20 ->
  of_int num_cores = Ok cores ->
  drop_is_normal (resistance_per_meter_at_temp r20 temp_c) length_m cores
    current_a = true ->
  exists d : float,
    calculate_voltage_drop length_m current_a cable_type conductor_spec
      num_cores temp_c = Ok d
    /\ isnormal d = true
    /\ Qabs (float_value d
             - float_value current_a
               * (float_value (resistance_per_meter_at_temp r20 temp_c)
                  * float_value length_m * 2 / float_value cores))
       <= (1 # 2 ^ 49) * Qabs (float_value d).
Proof.
  intros E C H.
  destruct (drop_value _ _ _ _ H) as [Z0 [_ [P [[P1 P2] EP]]]].
  eexists. split; [ | split ].
  - exact (b64_drop_returns _ _ _ _ _ _ r20 cores E C Z0).
  - unfold drop_is_normal in H. rewrite !andb_true_iff in H. tauto.
  - rewrite EP.
    match goal with
    | |- Qabs (?d - ?d * P) <= _ =>
        assert (X : d - d * P == d * (1 - P)) by ring; rewrite X
    end.
    rewrite Qabs_Qmult, (Qmult_comm (1 # 2 ^ 49)).
    apply Qmult_le_compat_l; [ apply Qabs_nonneg | ].
    assert (B : eta4 <= 1 # 2 ^ 49) by qcompute.
    apply Qabs_Qle_condition. lra.
Qed.

Lemma voltage_drop_accuracy_witness :
  exists d : float,
    calculate_voltage_drop 50%float 0.5%float "network" "Cat6" 2 35%float = Ok d
    /\ isnormal d = true
    /\ Qabs (float_value d
             - float_value 0.5%float
               * (float_value (resistance_per_meter_at_temp 0.07%float 35%float)
                  * float_value 50%float * 2 / float_value 2%float))
       <= (1 # 2 ^ 49) * Qabs (float_value d).
Proof.
  apply (voltage_drop_accuracy 50%float 0.5%float "network"%string
           "Cat6"%string 2%Z 35%float 0.07%float 2%float).
  - vm_compute. reflexivity.
  - vm_compute. reflexivity.
  - vm_compute. reflexivity.
Defined.

(** C10. With [num_cores = 0] and a catalog entry, the forward calculator
    raises ZeroDivisionError whatever the other arguments are: the division
    by [num_cores] is reached and nothing checks [num_cores] before it. *)
Theorem zero_cores_raises :
  (forall (length_m current_a temp_c : Q) (cable_type conductor_spec : string),
      (cable_type, conductor_spec) ∈ catalog_pairs ->
      calculate_voltage_drop length_m current_a cable_type conductor_spec
        0 temp_c = Raise ZeroDivisionError)
  /\ (forall (length_m current_a temp_c : float)
             (cable_type conductor_spec : string),
      (cable_type, conductor_spec) ∈ catalog_pairs ->
      calculate_voltage_drop length_m current_a cable_type conductor_spec
        0 temp_c = Raise ZeroDivisionError).
Proof.
  split; intros length_m current_a temp_c cable_type conductor_spec V.
  - destruct (resistance_present (F := Q) _ _ V) as [r20 E].
    apply (drop_raises _ _ _ _ _ _ r20 (inject_Z 0) E eq_refl eq_refl).
  - destruct (resistance_present (F := float) _ _ V) as [r20 E].
    apply (drop_raises _ _ _ _ _ _ r20 0%float E); vm_compute; reflexivity.
Qed.

Lemma zero_cores_raises_witness :
  calculate_voltage_drop 50 0.5 "alarm" "18 AWG" 0 20 = Raise ZeroDivisionError.
Proof.
  apply (proj1 zero_cores_raises).
  unfold catalog_pairs. rewrite ?elem_of_cons. tauto.
Defined.

(** C3, as stated, fails: at -250 degrees C the compensation factor
    [1 + 0.00393 * (temp_c - 20)] is negative, and so is the drop, for a
    50 m run of 18 AWG carrying 0.5 A on one core. *)
Lemma voltage_drop_negative_when_cold :
  ~ (forall (length_m current_a : Q) (cable_type conductor_spec : string)
            (num_cores : Z) (temp_c : Q),
        (cable_type, conductor_spec) ∈ catalog_pairs ->
        0 < length_m -> 0 <= current_a -> (1 <= num_cores)%Z ->
        exists v : Q,
          calculate_voltage_drop length_m current_a cable_type conductor_spec
            num_cores temp_c = Ok v
          /\ 0 <= v)
  /\ (exists v : float,
        calculate_voltage_drop 50%float 0.5%float "alarm" "18 AWG" 1
          (-250)%float = Ok v
        /\ (v <? 0)%float = true).
Proof.
  split.
  - intros A.
    destruct (A 50 0.5 "alarm"%string "18 AWG"%string 1%Z (-250))
      as [v [E L]].
    + unfold catalog_pairs. rewrite ?elem_of_cons. tauto.
    + reflexivity.
    + discriminate.
    + lia.
    + vm_compute in E. injection E as <-. apply L. reflexivity.
  - eexists. split; vm_compute; reflexivity.
Qed.

(** C3, amended.  In binary64, for a catalog entry, [length_m > 0],
    [current_a >= 0], [num_cores >= 1] converting to a double that is not
    zero, and a temperature at which the compensation factor
    [1 + 0.00393 * (temp_c - 20)] is at least 0, the forward calculator
    returns a drop that is never below zero: it is [>= 0], or it is NaN
    (a zero multiplied by an infinity, as when a product overflows and the
    current is 0). *)
Theorem voltage_drop_nonnegative
    (length_m current_a : float) (cable_type conductor_spec : string)
    (num_cores : Z) (temp_c cores : float) :
  (cable_type, conductor_spec) ∈ catalog_pairs ->
  (0 <? length_m)%float = true -> (0 <=? current_a)%float = true ->
  (1 <= num_cores)%Z ->
  of_int num_cores = Ok cores -> (cores =? 0)%float = false ->
  (0 <=? 1 + 0.00393 * (temp_c - 20))%float = true ->
  exists d : float,
    calculate_voltage_drop length_m current_a cable_type conductor_spec
      num_cores temp_c = Ok d
    /\ (d <? 0)%float = false
    /\ ((0 <=? d)%float = true \/ isnan d = true).
Proof.
  intros V L C N E NZ T.
  destruct (resistance_present (F := float) _ _ V) as [r20 R].
  exists (current_a
          * (r20 * (1 + 0.00393 * (temp_c - 20)) * length_m * 2 / cores))%float.
  split.
  - rewrite (drop_returns _ _ _ _ _ _ r20 cores R E)
      by (rewrite b64_lit_0; exact NZ).
    unfold resistance_per_meter_at_temp.
    rewrite b64_lit_1, b64_lit_2, b64_lit_20, b64_alpha. reflexivity.
  - apply not_negative_compare.
    rewrite FloatAxioms.mul_spec. apply SFmul_not_negative.
    { apply leb_0_not_negative. exact C. }
    rewrite FloatAxioms.div_spec. apply SFdiv_not_negative.
    2:{ apply divisor_positive_or_nan; [ | exact NZ ].
        exact (of_int_not_negative _ _ N E). }
    rewrite FloatAxioms.mul_spec. apply SFmul_not_negative;
      [ | vm_compute; reflexivity ].
    rewrite FloatAxioms.mul_spec. apply SFmul_not_negative;
      [ | apply ltb_0_positive; exact L ].
    rewrite FloatAxioms.mul_spec. apply SFmul_not_negative.
    + exact (b64_resistance_positive _ _ _ R).
    + apply leb_0_not_negative. exact T.
Qed.

Lemma voltage_drop_nonnegative_witness :
  exists d : float,
    calculate_voltage_drop 50%float 0.5%float "alarm" "18 AWG" 1 (-200)%float
    = Ok d
    /\ (d <? 0)%float = false
    /\ ((0 <=? d)%float = true \/ isnan d = true).
Proof.
  apply (voltage_drop_nonnegative 50%float 0.5%float "alarm" "18 AWG" 1
           (-200)%float 1%float).
  - unfold catalog_pairs. rewrite ?elem_of_cons. tauto.
  - vm_compute. reflexivity.
  - vm_compute. reflexivity.
  - lia.
  - vm_compute. reflexivity.
  - vm_compute. reflexivity.
  - vm_compute. reflexivity.
Defined.

(** ** Temperature compensation *)

(** C9. At the reference temperature the compensation is the identity:
    the factor [1 + ALPHA_COPPER * (20 - 20)] is 1 and a resistance
    compensated to 20 degrees C is itself; in binary64 every tabulated
    resistance comes back bit for bit. *)
Theorem compensation_identity_at_reference :
  (forall r20 : Q, resistance_per_meter_at_temp r20 20 == r20)
  /\ 1 + ALPHA_COPPER * (20 - 20) == 1
  /\ Forall (fun row : string * string * float =>
               resistance_per_meter_at_temp row.2 20%float = row.2)
       catalog_rows.
Proof.
  split; [ | split ].
  - intros r20. unfold resistance_per_meter_at_temp, ALPHA_COPPER.
    cbn [fmul fadd fsub lit exact]. ring.
  - reflexivity.
  - unfold catalog_rows. repeat constructor; vm_compute; reflexivity.
Qed.

(** ** The reverse solver *)

Lemma ltb_0_guards (x : float) :
  (0 <? x)%float = true ->
  (x <=? 0)%float = false /\ (x =? 0)%float = false.
Proof.
  rewrite FloatAxioms.ltb_spec, FloatAxioms.leb_spec, FloatAxioms.eqb_spec,
    Prim2SF_0.
  unfold SFltb, SFleb, SFeqb.
  destruct (Prim2SF x) as [s | [ | ] | | [ | ] m e]; cbn;
    intros E; try discriminate E; split; reflexivity.
Qed.

(** C2, as stated, fails: the quotient of the two resistances can
    overflow, and [round] then raises OverflowError.  For 1e308 m of Cat5e
    at 1e-300 V, 1 A and 10 percent the current is not zero and the allowed
    resistance is above zero, yet no core count is returned. *)
Lemma cores_quotient_overflow_raises :
  (1 =? 0)%float = false
  /\ (0 <? 1e-300 * (10 / 100) / 1)%float = true
  /\ determine_cores_required 1e308%float 1e-300%float 1%float
       "network" "Cat5e" 10%float 20%float = Raise OverflowError.
Proof.
  repeat split; vm_compute; reflexivity.
Qed.

(** C2, amended.  In binary64, for a catalog entry, a current that is not
    zero and an allowed resistance
    [source_voltage * (max_drop_percent / 100) / current] above zero, the
    solver is decided by the quotient [q] of the single-path resistance by
    the allowed resistance: when [q] is finite it returns the int
    [max(1, round(q))], where [round] picks the integer nearest to the
    value of [q] (ties to even), never further than one half from it and
    so not the next integer up; when [q] is infinite it raises
    OverflowError and when [q] is NaN it raises ValueError.  100 m of Cat5e
    at 12 V and 1 A needs 16 cores for a 10 percent drop, and for a 12
    percent drop the answer is 13 although the quotient is above 13. *)
Theorem cores_rounds_to_nearest :
  (forall (length_m required_voltage required_current : float)
          (cable_type conductor_spec : string)
          (min_voltage_percent_drop temp_c r20 : float),
      resistance_per_meter_at_20c cable_type conductor_spec = Ok r20 ->
      (required_current =? 0)%float = false ->
      (0 <? required_voltage * (min_voltage_percent_drop / 100)
            / required_current)%float = true ->
      let q := (r20 * (1 + 0.00393 * (temp_c - 20)) * length_m * 2
                / (required_voltage * (min_voltage_percent_drop / 100)
                   / required_current))%float in
      (isfinite q = true ->
       determine_cores_required length_m required_voltage required_current
         cable_type conductor_spec min_voltage_percent_drop temp_c
       = Ok (PyInt (Z.max 1 (round_half_even (float_value q)))))
      /\ (isinf q = true ->
          determine_cores_required length_m required_voltage required_current
            cable_type conductor_spec min_voltage_percent_drop temp_c
          = Raise OverflowError)
      /\ (isnan q = true ->
          determine_cores_required length_m required_voltage required_current
            cable_type conductor_spec min_voltage_percent_drop temp_c
          = Raise (ValueError "cannot convert float NaN to integer")))
  /\ (forall q : Q, Qabs (q - inject_Z (round_half_even q)) <= 1 # 2)
  /\ determine_cores_required 100%float 12%float 1%float "network" "Cat5e"
       10%float 20%float = Ok (PyInt 16)
  /\ (determine_cores_required 100%float 12%float 1%float "network" "Cat5e"
        12%float 20%float = Ok (PyInt 13)
      /\ (13 <? 0.0938 * (1 + 0.00393 * (20 - 20)) * 100 * 2
                / (12 * (12 / 100) / 1))%float = true).
Proof.
  split; [ | split; [ | split; [ | split ] ] ].
  - intros length_m required_voltage required_current cable_type conductor_spec
      min_voltage_percent_drop temp_c r20 R NZ POS q.
    destruct (ltb_0_guards _ POS) as [NL NE].
    assert (S : determine_cores_required length_m required_voltage
                  required_current cable_type conductor_spec
                  min_voltage_percent_drop temp_c
                = (rounded ← fround q; Ok (PyInt (Z.max 1 rounded)))).
    { rewrite (cores_rounded length_m required_voltage required_current
                 cable_type conductor_spec min_voltage_percent_drop temp_c r20
                 R binary64_hundred);
        rewrite ?b64_lit_0, ?b64_lit_100; try assumption.
      unfold resistance_per_meter_at_temp.
      rewrite b64_lit_1, b64_lit_2, b64_lit_20, b64_alpha. reflexivity. }
    rewrite S. cbn [fround binary64].
    unfold isfinite, isinf, isnan, float_value.
    destruct (Prim2SF q) as [s | s | | s m e];
      (split; [ | split ]); intros C; try discriminate C; reflexivity.
  - exact round_half_even_nearest.
  - vm_compute. reflexivity.
  - vm_compute. reflexivity.
  - vm_compute. reflexivity.
Qed.

Lemma cores_rounds_to_nearest_witness :
  determine_cores_required 30%float 24%float 2%float "alarm" "22 AWG"
    5%float 40%float
  = Ok (PyInt (Z.max 1 (round_half_even (float_value
          (0.0333 * (1 + 0.00393 * (40 - 20)) * 30 * 2
           / (24 * (5 / 100) / 2))%float)))).
Proof.
  apply (proj1 cores_rounds_to_nearest 30%float 24%float 2%float
           "alarm"%string "22 AWG"%string 5%float 40%float 0.0333%float).
  - vm_compute. reflexivity.
  - vm_compute. reflexivity.
  - vm_compute. reflexivity.
  - vm_compute. reflexivity.
Defined.

(** C6. With [required_current = 0] and a catalog entry, the solver
    returns 1 when [required_voltage * (min_voltage_percent_drop / 100)] is
    at least 0 and [float('inf')] otherwise, whatever the other arguments
    are: no other feasibility check is consulted.  In exact arithmetic and
    in binary64. *)
Theorem cores_zero_current_guard :
  (forall (length_m required_voltage required_current : Q)
          (cable_type conductor_spec : string)
          (min_voltage_percent_drop temp_c : Q),
      (cable_type, conductor_spec) ∈ catalog_pairs ->
      required_current == 0 ->
      (0 <= required_voltage * (min_voltage_percent_drop / 100) ->
       determine_cores_required length_m required_voltage required_current
         cable_type conductor_spec min_voltage_percent_drop temp_c
       = Ok (PyInt 1))
      /\ (required_voltage * (min_voltage_percent_drop / 100) < 0 ->
          determine_cores_required length_m required_voltage required_current
            cable_type conductor_spec min_voltage_percent_drop temp_c
          = Ok (PyFloat infinity)))
  /\ (forall (length_m required_voltage required_current : float)
             (cable_type conductor_spec : string)
             (min_voltage_percent_drop temp_c : float),
      (cable_type, conductor_spec) ∈ catalog_pairs ->
      (required_current =? 0)%float = true ->
      determine_cores_required length_m required_voltage required_current
        cable_type conductor_spec min_voltage_percent_drop temp_c
      = Ok (if (0 <=? required_voltage * (min_voltage_percent_drop / 100))%float
            then PyInt 1 else PyFloat infinity)).
Proof.
  split.
  - intros length_m required_voltage required_current cable_type conductor_spec
      min_voltage_percent_drop temp_c V Z0.
    destruct (resistance_present (F := Q) _ _ V) as [r20 E].
    rewrite (cores_zero_current length_m required_voltage required_current
               cable_type conductor_spec min_voltage_percent_drop temp_c r20
               E exact_hundred (exact_eqb_true _ Z0)).
    cbn [fleb fmul fdiv lit exact].
    split; intros S.
    + rewrite (exact_leb_true _ _ S). reflexivity.
    + rewrite (exact_leb_false _ _ S). reflexivity.
  - intros length_m required_voltage required_current cable_type conductor_spec
      min_voltage_percent_drop temp_c V Z0.
    destruct (resistance_present (F := float) _ _ V) as [r20 E].
    apply (cores_zero_current length_m required_voltage required_current
             cable_type conductor_spec min_voltage_percent_drop temp_c r20
             E binary64_hundred Z0).
Qed.

Lemma cores_zero_current_guard_witness :
  determine_cores_required 100 12 0 "network" "Cat5e" 0 20 = Ok (PyInt 1)
  /\ determine_cores_required 100 (-12) 0 "network" "Cat5e" 10 20
     = Ok (PyFloat infinity)
  /\ determine_cores_required 100%float (-12)%float (-0)%float
       "network" "Cat5e" 10%float 20%float
     = Ok (PyFloat infinity).
Proof.
  assert (V : (("network", "Cat5e") : string * string) ∈ catalog_pairs).
  { unfold catalog_pairs. rewrite ?elem_of_cons. tauto. }
  split; [ | split ].
  - apply (proj1 cores_zero_current_guard 100 12 0 "network"%string
             "Cat5e"%string 0 20 V).
    + reflexivity.
    + unfold Qle; simpl; lia.
  - apply (proj1 cores_zero_current_guard 100 (-12) 0 "network"%string
             "Cat5e"%string 10 20 V).
    + reflexivity.
    + reflexivity.
  - apply (proj2 cores_zero_current_guard 100%float (-12)%float (-0)%float
             "network"%string "Cat5e"%string 10%float 20%float V).
    reflexivity.
Defined.

(** C4, as stated, fails: with [required_current = 0] the guard of line 81
    answers 1 core, also when the allowed drop percentage or the source
    voltage is 0. *)
Lemma zero_budget_with_zero_current_gives_one_core :
  ~ (forall (length_m required_voltage required_current : Q)
            (cable_type conductor_spec : string) (temp_c : Q),
        (cable_type, conductor_spec) ∈ catalog_pairs ->
        determine_cores_required length_m required_voltage required_current
          cable_type conductor_spec 0 temp_c = Ok (PyFloat infinity))
  /\ ~ (forall (length_m required_current : Q)
               (cable_type conductor_spec : string)
               (min_voltage_percent_drop temp_c : Q),
        (cable_type, conductor_spec) ∈ catalog_pairs ->
        determine_cores_required length_m 0 required_current
          cable_type conductor_spec min_voltage_percent_drop temp_c
        = Ok (PyFloat infinity))
  /\ determine_cores_required 100%float 12%float 0%float "network" "Cat5e"
       0%float 20%float = Ok (PyInt 1)
  /\ determine_cores_required 100%float 0%float 0%float "network" "Cat5e"
       10%float 20%float = Ok (PyInt 1).
Proof.
  assert (V : (("network", "Cat5e") : string * string) ∈ catalog_pairs).
  { unfold catalog_pairs. rewrite ?elem_of_cons. tauto. }
  split; [ | split; [ | split ] ].
  - intros A. specialize (A 100 12 0 "network"%string "Cat5e"%string 20 V).
    vm_compute in A. discriminate A.
  - intros A. specialize (A 100 0 "network"%string "Cat5e"%string 10 20 V).
    vm_compute in A. discriminate A.
  - vm_compute. reflexivity.
  - vm_compute. reflexivity.
Qed.

(** C4, amended.  In binary64, for a catalog entry and a required
    current that is neither zero nor NaN, the solver returns [float('inf')]
    when the allowed drop percentage is 0 and the source voltage is finite,
    and when the source voltage is 0 and the percentage over 100 is
    finite. *)
Theorem cores_zero_budget_infeasible
    (length_m required_voltage required_current : float)
    (cable_type conductor_spec : string)
    (min_voltage_percent_drop temp_c : float) :
  (cable_type, conductor_spec) ∈ catalog_pairs ->
  (required_current =? 0)%float = false ->
  isnan required_current = false ->
  ((min_voltage_percent_drop =? 0)%float = true
   /\ isfinite required_voltage = true)
  \/ ((required_voltage =? 0)%float = true
      /\ isfinite (min_voltage_percent_drop / 100)%float = true) ->
  determine_cores_required length_m required_voltage required_current
    cable_type conductor_spec min_voltage_percent_drop temp_c
  = Ok (PyFloat infinity).
Proof.
  intros V NZ NN B.
  destruct (resistance_present (F := float) _ _ V) as [r20 R].
  apply (cores_impossible length_m required_voltage required_current
           cable_type conductor_spec min_voltage_percent_drop temp_c r20
           R binary64_hundred).
  { rewrite b64_lit_0. exact NZ. }
  rewrite b64_lit_0, b64_lit_100. cbn [fleb fdiv fmul binary64].
  rewrite FloatAxioms.leb_spec, FloatAxioms.div_spec, FloatAxioms.mul_spec,
    Prim2SF_0.
  pose proof (eqb_0_false_not_zero _ NZ) as CZ. unfold isnan in NN.
  destruct B as [[P0 VF] | [V0 PF]].
  - apply eqb_0_true_zero in P0. destruct P0 as [sp P0].
    rewrite FloatAxioms.div_spec, P0.
    replace (Prim2SF 100) with (S754_finite false 7036874417766400 (-46))
      by (vm_compute; reflexivity).
    unfold isfinite in VF.
    destruct (Prim2SF required_voltage) as [sv | sv | | sv mv ev];
      try discriminate VF;
      destruct (Prim2SF required_current) as [sc | sc | | sc mc ec];
      try discriminate NN; try (exfalso; exact (CZ sc eq_refl));
      reflexivity.
  - apply eqb_0_true_zero in V0. destruct V0 as [sv V0]. rewrite V0.
    unfold isfinite in PF.
    destruct (Prim2SF (min_voltage_percent_drop / 100)) as [sp | sp | | sp mp ep];
      try discriminate PF;
      destruct (Prim2SF required_current) as [sc | sc | | sc mc ec];
      try discriminate NN; try (exfalso; exact (CZ sc eq_refl));
      reflexivity.
Qed.

Lemma cores_zero_budget_infeasible_witness :
  determine_cores_required 100%float 12%float 1%float "network" "Cat5e"
    0%float 20%float = Ok (PyFloat infinity)
  /\ determine_cores_required 100%float 0%float 1%float "network" "Cat5e"
       10%float 20%float = Ok (PyFloat infinity).
Proof.
  assert (V : (("network", "Cat5e") : string * string) ∈ catalog_pairs).
  { unfold catalog_pairs. rewrite ?elem_of_cons. tauto. }
  split.
  - apply (cores_zero_budget_infeasible 100%float 12%float 1%float
             "network" "Cat5e" 0%float 20%float V).
    + vm_compute. reflexivity.
    + vm_compute. reflexivity.
    + left. split; vm_compute; reflexivity.
  - apply (cores_zero_budget_infeasible 100%float 0%float 1%float
             "network" "Cat5e" 10%float 20%float V).
    + vm_compute. reflexivity.
    + vm_compute. reflexivity.
    + right. split; vm_compute; reflexivity.
Defined.

(** Whatever the arithmetic, a value the solver returns is [float('inf')]
    or an int that is at least 1. *)
Lemma cores_value_cases {F : Type} `{FloatArith F}
    (length_m required_voltage required_current : F)
    (cable_type conductor_spec : string)
    (min_voltage_percent_drop temp_c : F) (val : pyvalue) :
  determine_cores_required length_m required_voltage required_current
    cable_type conductor_spec min_voltage_percent_drop temp_c = Ok val ->
  val = PyFloat infinity \/ exists n : Z, val = PyInt n /\ (1 <= n)%Z.
Proof.
  unfold determine_cores_required, mbind, result_bind, py_div.
  repeat match goal with
         | |- context [ match ?x with _ => _ end ] => destruct x
         end;
    intros E; try discriminate E; injection E as <-;
    solve [ left; reflexivity
          | right; eexists; split; [ reflexivity | lia ] ].
Qed.

(** C5, as stated, fails: the infeasible outcome of line 90 is the float
    [float('inf')], a floating-point infinity. *)
Lemma infeasible_marker_is_a_float :
  exists val : pyvalue,
    determine_cores_required 100 12 1 "network" "Cat5e" 0 20 = Ok val
    /\ determine_cores_required 100%float 12%float 1%float "network" "Cat5e"
         0%float 20%float = Ok val
    /\ val = PyFloat infinity
    /\ is_float val = true.
Proof.
  exists (PyFloat infinity). repeat split; vm_compute; reflexivity.
Qed.

(** C5, amended. The value the solver returns is either the float
    [float('inf')], a floating-point infinity, or an int that is at least
    1; and [float('inf')] equals no int, so the infeasible outcome is
    distinct from every core count. *)
Theorem infeasible_is_float_infinity {F : Type} `{FloatArith F}
    (length_m required_voltage required_current : F)
    (cable_type conductor_spec : string)
    (min_voltage_percent_drop temp_c : F) (val : pyvalue) :
  determine_cores_required length_m required_voltage required_current
    cable_type conductor_spec min_voltage_percent_drop temp_c = Ok val ->
  (val = PyFloat infinity \/ exists n : Z, val = PyInt n /\ (1 <= n)%Z)
  /\ is_float (PyFloat infinity) = true
  /\ is_infinity infinity = true
  /\ forall n : Z,
       py_eq (PyFloat infinity) (PyInt n) = false
       /\ py_eq (PyInt n) (PyFloat infinity) = false.
Proof.
  intros E. split; [ exact (cores_value_cases _ _ _ _ _ _ _ _ E) | ].
  repeat split; reflexivity.
Qed.

Lemma infeasible_is_float_infinity_witness :
  (PyFloat infinity = PyFloat infinity
   \/ exists n : Z, PyFloat infinity = PyInt n /\ (1 <= n)%Z)
  /\ is_float (PyFloat infinity) = true
  /\ is_infinity infinity = true
  /\ forall n : Z,
       py_eq (PyFloat infinity) (PyInt n) = false
       /\ py_eq (PyInt n) (PyFloat infinity) = false.
Proof.
  apply (infeasible_is_float_infinity (F := Q)
           100 12 1 "network" "Cat5e" 0 20 (PyFloat infinity)).
  vm_compute. reflexivity.
Defined.

(** ** The catalog lookup *)

(** C7. The lookup that opens both functions returns the tabulated
    resistance for each of the five catalog keys, and for every other
    (cable type, conductor) pair both functions raise the ValueError
    instead of returning. *)
Theorem catalog_lookup {F : Type} `{FloatArith F} :
  (resistance_per_meter_at_20c "alarm" "18 AWG" = Ok (lit 0.0209)
   /\ resistance_per_meter_at_20c "alarm" "22 AWG" = Ok (lit 0.0333)
   /\ resistance_per_meter_at_20c "alarm" "24 AWG" = Ok (lit 0.0529)
   /\ resistance_per_meter_at_20c "network" "Cat5e" = Ok (lit 0.0938)
   /\ resistance_per_meter_at_20c "network" "Cat6" = Ok (lit 0.0700))
  /\ forall cable_type conductor_spec : string,
       (cable_type, conductor_spec) ∉ catalog_pairs ->
       (forall (length_m current_a : F) (num_cores : Z) (temp_c : F),
           calculate_voltage_drop length_m current_a cable_type conductor_spec
             num_cores temp_c = Raise invalid_cable)
       /\ (forall length_m required_voltage required_current
                  min_voltage_percent_drop temp_c : F,
           determine_cores_required length_m required_voltage required_current
             cable_type conductor_spec min_voltage_percent_drop temp_c
           = Raise invalid_cable).
Proof.
  split.
  - exact (conj alarm_18 (conj alarm_22 (conj alarm_24
             (conj network_cat5e network_cat6)))).
  - intros cable_type conductor_spec N. split; intros.
    + apply calculate_voltage_drop_missing. exact N.
    + apply determine_cores_required_missing. exact N.
Qed.

Lemma catalog_lookup_witness :
  (forall (length_m current_a : Q) (num_cores : Z) (temp_c : Q),
      calculate_voltage_drop length_m current_a "alarm" "Cat5e"
        num_cores temp_c = Raise invalid_cable)
  /\ (forall length_m required_voltage required_current
             min_voltage_percent_drop temp_c : Q,
      determine_cores_required length_m required_voltage required_current
        "alarm" "Cat5e" min_voltage_percent_drop temp_c
      = Raise invalid_cable).
Proof.
  apply (proj2 (catalog_lookup (F := Q))).
  apply (bool_decide_unpack _). vm_compute. reflexivity.
Defined.

(** ** What the solver can raise *)

(** At an arithmetic where 100 is not zero and a number equal to zero is
    also at most zero, an exception out of the solver comes from the
    catalog lookup or from [round]: the guards of lines 80 and 89 keep both
    divisions away from a zero divisor. *)
Lemma cores_raise_origin {F : Type} `{FloatArith F}
    (length_m required_voltage required_current : F)
    (cable_type conductor_spec : string)
    (min_voltage_percent_drop temp_c : F) (e : pyexn) :
  feqb (lit 100) (lit 0) = false ->
  (forall x : F, feqb x (lit 0) = true -> fleb x (lit 0) = true) ->
  determine_cores_required length_m required_voltage required_current
    cable_type conductor_spec min_voltage_percent_drop temp_c = Raise e ->
  resistance_per_meter_at_20c cable_type conductor_spec = Raise e
  \/ exists x : F, fround x = Raise e.
Proof.
  intros H100 EL E.
  destruct (resistance_per_meter_at_20c cable_type conductor_spec)
    as [r20 | e'] eqn:R.
  2:{ left. unfold determine_cores_required in E. rewrite R in E.
      cbn in E. injection E as <-. reflexivity. }
  right.
  destruct (feqb required_current (lit 0)) eqn:C0.
  { rewrite (cores_zero_current _ _ _ _ _ _ _ r20 R H100 C0) in E.
    discriminate E. }
  set (allowed := fdiv (fmul required_voltage
                          (fdiv min_voltage_percent_drop (lit 100)))
                    required_current).
  destruct (fleb allowed (lit 0)) eqn:L0.
  { rewrite (cores_impossible _ _ _ _ _ _ _ r20 R H100 C0 L0) in E.
    discriminate E. }
  assert (N0 : feqb allowed (lit 0) = false).
  { destruct (feqb allowed (lit 0)) eqn:Q0; [ | reflexivity ].
    apply EL in Q0. rewrite Q0 in L0. discriminate L0. }
  rewrite (cores_rounded length_m _ _ _ _ _ temp_c r20 R H100 C0 L0 N0) in E.
  match type of E with
  | context [ fround ?x ] => exists x; destruct (fround x) as [k | e'] eqn:FR
  end.
  - discriminate E.
  - cbn in E. injection E as <-. reflexivity.
Qed.

Lemma binary64_zero_at_most_zero (x : float) :
  feqb x (lit 0) = true -> fleb x (lit 0) = true.
Proof.
  assert (Z0 : (lit 0 : float) = 0%float) by (vm_compute; reflexivity).
  rewrite Z0. cbn [feqb fleb binary64].
  rewrite FloatAxioms.eqb_spec, FloatAxioms.leb_spec.
  unfold SFeqb, SFleb. destruct (SFcompare _ _) as [ [ | | ] | ];
    intros E; try discriminate E; reflexivity.
Qed.

(** In binary64, whatever floats it is given, the solver never raises
    ZeroDivisionError: an exception out of it is the ValueError of the
    catalog lookup, the OverflowError of [round] on an infinite quotient or
    the ValueError of [round] on a NaN quotient. *)
Theorem cores_never_divides_by_zero
    (length_m required_voltage required_current : float)
    (cable_type conductor_spec : string)
    (min_voltage_percent_drop temp_c : float) (e : pyexn) :
  determine_cores_required length_m required_voltage required_current
    cable_type conductor_spec min_voltage_percent_drop temp_c = Raise e ->
  (e = invalid_cable /\ (cable_type, conductor_spec) ∉ catalog_pairs)
  \/ e = OverflowError
  \/ e = ValueError "cannot convert float NaN to integer".
Proof.
  intros E.
  apply cores_raise_origin in E;
    [ | exact binary64_hundred | exact binary64_zero_at_most_zero ].
  destruct E as [E | [x E]].
  - left.
    pose proof (resistance_cases (F := float) cable_type conductor_spec) as C.
    rewrite E in C. exact C.
  - right. cbn [fround binary64] in E.
    destruct (Prim2SF x); try discriminate E; injection E as <-; tauto.
Qed.

Lemma cores_never_divides_by_zero_witness :
  (OverflowError = invalid_cable
   /\ (("network", "Cat5e") : string * string) ∉ catalog_pairs)
  \/ OverflowError = OverflowError
  \/ OverflowError = ValueError "cannot convert float NaN to integer".
Proof.
  apply (cores_never_divides_by_zero 1e308%float 1e-300%float 1%float
           "network" "Cat5e" 10%float 20%float OverflowError).
  vm_compute. reflexivity.
Defined.

(** ** binary64: negation *)
















(** In binary64, for a catalog entry and whatever floats are given, the
    solver answers [float('inf')] exactly when one of its two guards says
    so: the current is zero and the allowed drop
    [required_voltage * (min_voltage_percent_drop / 100)] is not at least
    0, or the current is not zero and the allowed resistance is at most 0,
    both as the code computes them.  Length, conductor and temperature play
    no part, and the rounding branch never produces it. *)
Theorem cores_infeasible_iff
    (length_m required_voltage required_current : float)
    (cable_type conductor_spec : string)
    (min_voltage_percent_drop temp_c : float) :
  (cable_type, conductor_spec) ∈ catalog_pairs ->
  determine_cores_required length_m required_voltage required_current
    cable_type conductor_spec min_voltage_percent_drop temp_c
  = Ok (PyFloat infinity)
  <-> ((required_current =? 0)%float = true
       /\ (0 <=? required_voltage * (min_voltage_percent_drop / 100))%float
          = false)
      \/ ((required_current =? 0)%float = false
          /\ (required_voltage * (min_voltage_percent_drop / 100)
              / required_current <=? 0)%float = true).
Proof.
  intros V.
  destruct (resistance_present (F := float) _ _ V) as [r20 R].
  pose proof (cores_zero_current length_m required_voltage required_current
                cable_type conductor_spec min_voltage_percent_drop temp_c r20
                R binary64_hundred) as Z.
  pose proof (cores_impossible length_m required_voltage required_current
                cable_type conductor_spec min_voltage_percent_drop temp_c r20
                R binary64_hundred) as I.
  pose proof (cores_rounded length_m required_voltage required_current
                cable_type conductor_spec min_voltage_percent_drop temp_c r20
                R binary64_hundred) as Rd.
  pose proof (binary64_zero_at_most_zero
                (required_voltage * (min_voltage_percent_drop / 100)
                 / required_current)%float) as EL.
  rewrite ?b64_lit_0, ?b64_lit_100 in *.
  cbn [feqb fleb fmul fdiv binary64] in *.
  set (allowed := (required_voltage * (min_voltage_percent_drop / 100)
                   / required_current)%float) in *.
  destruct (required_current =? 0)%float eqn:C0.
  - rewrite (Z eq_refl).
    destruct (0 <=? required_voltage * (min_voltage_percent_drop / 100))%float;
      split; intros E; try discriminate E.
    + destruct E as [[_ E] | [E _]]; discriminate E.
    + left. split; reflexivity.
    + reflexivity.
  - destruct (allowed <=? 0)%float eqn:L0.
    + rewrite (I eq_refl eq_refl). split; [ | reflexivity ].
      intros _. right. split; reflexivity.
    + assert (N0 : (allowed =? 0)%float = false).
      { destruct (allowed =? 0)%float eqn:Q0; [ | reflexivity ].
        specialize (EL eq_refl). discriminate EL. }
      rewrite (Rd eq_refl eq_refl N0). split.
      * match goal with
        | |- context [ fround ?x ] => destruct (fround x)
        end; intros E; discriminate E.
      * intros [[E _] | [_ E]]; discriminate E.
Qed.

Lemma cores_infeasible_iff_witness :
  determine_cores_required 100%float (-12)%float 1%float "network" "Cat5e"
    10%float 20%float = Ok (PyFloat infinity)
  <-> ((1 =? 0)%float = true
       /\ (0 <=? -12 * (10 / 100))%float = false)
      \/ ((1 =? 0)%float = false
          /\ (-12 * (10 / 100) / 1 <=? 0)%float = true).
Proof.
  apply (cores_infeasible_iff 100%float (-12)%float 1%float "network" "Cat5e"
           10%float 20%float).
  unfold catalog_pairs. rewrite ?elem_of_cons. tauto.
Defined.

(** ** The caller *)

(** The if/elif chain of the wiring recommendation has no else, yet it
    never falls through on what the solver returns: the label is set to
    "Use 1 core of ..." for 1, to "Use n parallel cores of ..." for an int
    [n >= 2] and to the impossible text for [float('inf')].  On an int
    below 1 no branch would be taken. *)
Theorem wiring_recommendation_covers_solver {F : Type} `{FloatArith F}
    (float_str : float -> string)
    (length_m required_voltage required_current : F)
    (cable_type conductor_spec : string)
    (min_voltage_percent_drop temp_c : F) (val : pyvalue) :
  determine_cores_required length_m required_voltage required_current
    cable_type conductor_spec min_voltage_percent_drop temp_c = Ok val ->
  ((val = PyInt 1
    /\ wiring_recommendation float_str val conductor_spec
       = Some ("Use 1 core of " +:+ conductor_spec))
   \/ (exists n : Z,
         (2 <= n)%Z /\ val = PyInt n
         /\ wiring_recommendation float_str val conductor_spec
            = Some ("Use " +:+ pretty n +:+ " parallel cores of "
                    +:+ conductor_spec))
   \/ (val = PyFloat infinity
       /\ wiring_recommendation float_str val conductor_spec
          = Some "Impossible to meet requirements with this cable."))
  /\ forall n : Z, (n < 1)%Z ->
       wiring_recommendation float_str (PyInt n) conductor_spec = None.
Proof.
  intros E. split.
  - destruct (cores_value_cases _ _ _ _ _ _ _ _ E) as [-> | [n [-> N]]].
    + right. right. split; reflexivity.
    + destruct (Z.eq_dec n 1%Z) as [-> | N1].
      * left. split; reflexivity.
      * right. left. exists n. split; [ lia | split; [ reflexivity | ] ].
        unfold wiring_recommendation, py_eq, py_gt, py_str.
        destruct (Z.eqb_spec n 1%Z) as [ | _ ]; [ contradiction | ].
        destruct (Z.ltb_spec 1%Z n) as [ _ | ]; [ | lia ].
        reflexivity.
  - intros n N. unfold wiring_recommendation, py_eq, py_gt.
    destruct (Z.eqb_spec n 1%Z) as [ | _ ]; [ lia | ].
    destruct (Z.ltb_spec 1%Z n) as [ | _ ]; [ lia | ].
    reflexivity.
Qed.

Lemma wiring_recommendation_covers_solver_witness :
  wiring_recommendation (fun _ => ""%string) (PyInt 16) "Cat5e"
  = Some "Use 16 parallel cores of Cat5e"%string.
Proof.
  assert (S : determine_cores_required (F := Q) 100 12 1 "network" "Cat5e"
                10 20 = Ok (PyInt 16)) by (vm_compute; reflexivity).
  destruct (proj1 (wiring_recommendation_covers_solver
                     (fun _ => ""%string) _ _ _ _ _ _ _ _ S))
    as [[E _] | [[n [_ [E R]]] | [E _]]].
  - discriminate E.
  - injection E as <-. exact R.
  - discriminate E.
Defined.

(** ** The window state *)

(** The ordered items are the items of [CABLE_DATA]. *)
Lemma CABLE_DATA_items_agree {F : Type} `{FloatArith F} :
  CABLE_DATA
  = list_to_map ((fun item : string * list (string * F) =>
                    (item.1, list_to_map item.2)) <$> CABLE_DATA_items).
Proof. reflexivity. Qed.

Lemma cable_types_head : head cable_types = Some "alarm"%string.
Proof. reflexivity. Qed.

Lemma conductor_specs_cases (cable_type : string) :
  (cable_type = "alarm"%string
   /\ conductor_specs cable_type = [ "18 AWG"; "22 AWG"; "24 AWG" ]%string)
  \/ (cable_type = "network"%string
      /\ conductor_specs cable_type = [ "Cat5e"; "Cat6" ]%string)
  \/ ((cable_type ∉ cable_types) /\ conductor_specs cable_type = []).
Proof.
  unfold conductor_specs, CABLE_DATA_items. cbn [items_get].
  destruct (decide ("alarm"%string = cable_type)) as [<- | N1].
  { left. split; reflexivity. }
  destruct (decide ("network"%string = cable_type)) as [<- | N2].
  { right. left. split; reflexivity. }
  right. right. split; [ | reflexivity ].
  unfold cable_types. cbn. rewrite ?elem_of_cons, ?elem_of_nil.
  intuition congruence.
Qed.

Lemma conductor_specs_offered (cable_type conductor_spec : string) :
  conductor_spec ∈ conductor_specs cable_type
  <-> (cable_type, conductor_spec) ∈ catalog_pairs.
Proof.
  unfold catalog_pairs.
  destruct (conductor_specs_cases cable_type)
    as [[-> ->] | [[-> ->] | [N ->]]];
    rewrite ?elem_of_cons, ?elem_of_nil.
  - intuition congruence.
  - intuition congruence.
  - unfold cable_types in N. cbn in N.
    rewrite ?elem_of_cons, ?elem_of_nil in N. intuition congruence.
Qed.

Lemma catalog_pair_cable_type (cable_type conductor_spec : string) :
  (cable_type, conductor_spec) ∈ catalog_pairs -> cable_type ∈ cable_types.
Proof.
  unfold catalog_pairs, cable_types. cbn.
  rewrite ?elem_of_cons, ?elem_of_nil. intuition congruence.
Qed.

(** The two dropdowns offer exactly the catalog: a conductor is listed
    for a cable type of the first dropdown just when the pair is a key of
    [CABLE_DATA], that is when both calculators accept it. *)
Theorem dropdowns_offer_the_catalog (cable_type conductor_spec : string) :
  (cable_type ∈ cable_types /\ conductor_spec ∈ conductor_specs cable_type
   <-> (cable_type, conductor_spec) ∈ catalog_pairs)
  /\ ((cable_type, conductor_spec) ∈ catalog_pairs
      <-> exists r20 : Q,
            resistance_per_meter_at_20c cable_type conductor_spec = Ok r20).
Proof.
  split; [ split | split ].
  - intros [_ C]. apply conductor_specs_offered. exact C.
  - intros P. split.
    + exact (catalog_pair_cable_type _ _ P).
    + apply conductor_specs_offered. exact P.
  - apply resistance_present.
  - intros [r20 R].
    pose proof (resistance_cases (F := Q) cable_type conductor_spec) as C.
    rewrite R in C. unfold catalog_rows, catalog_pairs in *.
    rewrite ?elem_of_cons, ?elem_of_nil in *. intuition congruence.
Qed.

(** [update_conductor_specs] leaves a selection both calculators accept
    whenever the selected cable type is one of the catalog: it offers the
    conductors of that type, selects the first of them and touches nothing
    else; for any other cable type it offers nothing and selects the empty
    text. *)
Theorem update_conductor_specs_selects_catalog_pair (g : gui) :
  let g' := update_conductor_specs g in
  let selected := cable_type_entry (gui_entries g) in
  cable_type_entry (gui_entries g') = selected
  /\ conductor_spec_values g' = conductor_specs selected
  /\ (forall c : string,
        c ∈ conductor_spec_values g' <-> (selected, c) ∈ catalog_pairs)
  /\ (selected ∈ cable_types ->
      head (conductor_spec_values g')
      = Some (conductor_spec_entry (gui_entries g'))
      /\ (selected, conductor_spec_entry (gui_entries g')) ∈ catalog_pairs)
  /\ (selected ∉ cable_types ->
      conductor_spec_values g' = []
      /\ conductor_spec_entry (gui_entries g') = ""%string)
  /\ (length_entry (gui_entries g'), voltage_entry (gui_entries g'),
      current_entry (gui_entries g'), num_cores_entry (gui_entries g'),
      temp_entry (gui_entries g'), forward_mode g', gui_results g')
     = (length_entry (gui_entries g), voltage_entry (gui_entries g),
        current_entry (gui_entries g), num_cores_entry (gui_entries g),
        temp_entry (gui_entries g), forward_mode g, gui_results g).
Proof.
  destruct g as [[t c l v i n tc] vals mode res]. cbn.
  unfold update_conductor_specs. cbn [gui_entries cable_type_entry].
  pose proof (conductor_specs_offered t) as Offered.
  destruct (conductor_specs_cases t) as [[-> S] | [[-> S] | [N S]]];
    rewrite S in *; cbn.
  - split; [ reflexivity | split; [ reflexivity | split; [ exact Offered | ] ] ].
    split; [ | split; [ | reflexivity ] ].
    + intros _. split; [ reflexivity | ].
      apply Offered. rewrite elem_of_cons. left. reflexivity.
    + intros T. exfalso. apply T. unfold cable_types. cbn.
      rewrite ?elem_of_cons. tauto.
  - split; [ reflexivity | split; [ reflexivity | split; [ exact Offered | ] ] ].
    split; [ | split; [ | reflexivity ] ].
    + intros _. split; [ reflexivity | ].
      apply Offered. rewrite elem_of_cons. left. reflexivity.
    + intros T. exfalso. apply T. unfold cable_types. cbn.
      rewrite ?elem_of_cons. tauto.
  - split; [ reflexivity | split; [ reflexivity | split; [ exact Offered | ] ] ].
    split; [ | split; [ | reflexivity ] ].
    + intros T. contradiction.
    + intros _. split; reflexivity.
Qed.

Lemma update_conductor_specs_selects_catalog_pair_witness :
  let g' := update_conductor_specs
              (with_entry "cable_type" "network" initial_gui) in
  head (conductor_spec_values g') = Some (conductor_spec_entry (gui_entries g'))
  /\ (("network", conductor_spec_entry (gui_entries g')) : string * string)
     ∈ catalog_pairs.
Proof.
  apply (update_conductor_specs_selects_catalog_pair
           (with_entry "cable_type" "network" initial_gui)).
  unfold cable_types. cbn. rewrite ?elem_of_cons. tauto.
Defined.

(** [reset_inputs] brings the window back to the state [__init__] leaves
    it in, whatever it showed before: every entry at its default text, the
    first cable type with its first conductor selected (a pair both
    calculators accept), the forward mode, and every result label empty
    but for the current drop. *)
Theorem reset_inputs_restores_initial (g : gui) :
  reset_inputs g = initial_gui
  /\ (cable_type_entry (gui_entries (reset_inputs g)),
      conductor_spec_entry (gui_entries (reset_inputs g))) ∈ catalog_pairs
  /\ forward_mode (reset_inputs g) = true.
Proof.
  assert (R : reset_inputs g = initial_gui).
  { destruct g as [[t c l v i n tc] vals mode res]. vm_compute. reflexivity. }
  rewrite R. split; [ reflexivity | split; [ | reflexivity ] ].
  change ((("alarm", "18 AWG") : string * string) ∈ catalog_pairs).
  unfold catalog_pairs. rewrite ?elem_of_cons. tauto.
Qed.
